(** * Support / resistance zone detection (supportFunction.v1.js)

    A shallow embedding of [findSupportLevels] (the aggregating revision,
    second half of the source file) together with its two nested helpers
    [trendLineMatch] and [actedAsResistanceBefore], and of the overlap loop
    of the first revision.

    The program is embedded twice.

    Binary64 (module [B64]).  Numbers are IEEE 754 doubles, as primitive
    floats: every sum, product, quotient and comparison of the source is the
    float operation, with its rounding, its two zeros, its infinities and
    NaN.  [B64.toFixed2] and [B64.parseFloat] work on the exact value of a
    double ([Prim2SF]): two decimals with ties away from zero, exponent
    notation from 10^21, and correctly rounded reading of decimal text.
    The contracts whose truth depends on what a test at a threshold
    computes are stated and proved there.

    Exact rationals.  Numbers are rationals ([Q]), a quotient is a [jsnum]
    (a finite rational, an infinity or NaN).  This reading has no rounding
    and one zero; it carries the properties that do not depend on how a
    test at a threshold rounds: loop bounds, filters, grouping, order,
    counts and the shape of the texts. *)

From Stdlib Require Import List Bool Arith ZArith NArith QArith Qround Qabs.
From Stdlib Require Import Lia Lqa String Ascii Decimal DecimalString DecimalN
  DecimalPos.
From Stdlib Require Import Permutation Sorted.
From Stdlib Require Import Uint63 PrimFloat SpecFloat FloatOps FloatAxioms.
Import ListNotations.

Open Scope Q_scope.

(* ------------------------------------------------------------------ *)
(** ** Numbers *)

Module JS.

Inductive jsnum : Type :=
| Fin (q : Q)
| PosInf
| NegInf
| NaN.

(** [x < y] on finite numbers. *)
Definition ltb (x y : Q) : bool := negb (Qle_bool y x).

(** [a / b]. *)
Definition div (a b : Q) : jsnum :=
  if Qeq_bool b 0 then
    if ltb 0 a then PosInf else if ltb a 0 then NegInf else NaN
  else Fin (a / b).

(** [q <= c], [q < c] and [q >= c] for a quotient [q] and a literal [c]. *)
Definition le (q : jsnum) (c : Q) : bool :=
  match q with
  | Fin x => Qle_bool x c
  | NegInf => true
  | PosInf | NaN => false
  end.

Definition lt (q : jsnum) (c : Q) : bool :=
  match q with
  | Fin x => ltb x c
  | NegInf => true
  | PosInf | NaN => false
  end.

Definition ge (q : jsnum) (c : Q) : bool :=
  match q with
  | Fin x => Qle_bool c x
  | PosInf => true
  | NegInf | NaN => false
  end.

(** [n || 0] on a count. *)
Definition or0 (n : nat) : nat :=
  match n with
  | O => O
  | S _ => n
  end.

(** [for (let x = a; x < b; x++)]: the values taken by [x]. *)
Definition range (a b : nat) : list nat := seq a (b - a).

End JS.

(* ------------------------------------------------------------------ *)
(** ** Number.prototype.toFixed(2) and parseFloat *)

Open Scope string_scope.

Definition digit_char (d : N) : ascii := ascii_of_N (48 + d).

Definition is_digit (c : ascii) : bool :=
  let n := N_of_ascii c in (48 <=? n)%N && (n <=? 57)%N.

(** The integer [n] for which [n / 100 - x] is as close to zero as possible,
    the larger one on a tie ([x] non-negative). *)
Definition cents (x : Q) : Z := Qfloor (x * 100 + (1 # 2)).

Definition two_digits (f : N) : string :=
  String (digit_char (f / 10)) (String (digit_char (f mod 10)) EmptyString).

(** [x.toFixed(2)]: sign, integer digits, point, two fraction digits. *)
Definition toFixed2 (x : Q) : string :=
  let n := Z.to_N (cents (Qabs x)) in
  (if JS.ltb x 0 then "-" else "")
    ++ NilZero.string_of_uint (N.to_uint (n / 100))
    ++ "." ++ two_digits (n mod 100).

(** Longest prefix of decimal digits, and what follows it. *)
Fixpoint span_digits (s : string) : string * string :=
  match s with
  | EmptyString => (EmptyString, EmptyString)
  | String c r =>
      if is_digit c then
        let (d, rest) := span_digits r in (String c d, rest)
      else (EmptyString, s)
  end.

Definition N_of_digits (s : string) : N :=
  match NilEmpty.uint_of_string s with
  | Some d => N.of_uint d
  | None => 0%N
  end.

(** [parseFloat(s)] on plain decimal text: optional sign, digits, optional
    point and digits; whatever follows is ignored; [None] is NaN. *)
Definition parseFloat (s : string) : option Q :=
  let (neg, body) :=
    match s with
    | String c r =>
        if Ascii.eqb c "-" then (true, r)
        else if Ascii.eqb c "+" then (false, r)
        else (false, s)
    | EmptyString => (false, s)
    end in
  let (ip, rest) := span_digits body in
  let fp :=
    match rest with
    | String "." r => fst (span_digits r)
    | _ => EmptyString
    end in
  if ((String.length ip =? 0) && (String.length fp =? 0))%nat then None
  else
    let v := inject_Z (Z.of_N (N_of_digits ip))
             + inject_Z (Z.of_N (N_of_digits fp))
               / inject_Z (10 ^ Z.of_nat (String.length fp)) in
    Some (if neg then - v else v).

(** The comparator [(a, b) => parseFloat(a.zone) - parseFloat(b.zone)] is
    positive; a NaN result counts as zero in [Array.prototype.sort]. *)
Definition cmp_gt (a b : string) : bool :=
  match parseFloat a, parseFloat b with
  | Some x, Some y => JS.ltb y x
  | _, _ => false
  end.

Section Sort.
Context {A : Type} (key : A -> string).

Fixpoint insert_sorted (x : A) (l : list A) : list A :=
  match l with
  | [] => [x]
  | y :: l' =>
      if cmp_gt (key y) (key x) then x :: l else y :: insert_sorted x l'
  end.

(** [arr.sort(cmp)]: the sort is stable. *)
Definition js_sort (l : list A) : list A :=
  fold_left (fun acc x => insert_sorted x acc) l [].
End Sort.

(* ------------------------------------------------------------------ *)
(** ** Objects used as maps from zone text to a record *)

Section Obj.
Context {V : Type}.

Definition obj : Type := list (string * V).

Fixpoint obj_get (m : obj) (k : string) : option V :=
  match m with
  | [] => None
  | (k', v) :: m' => if String.eqb k' k then Some v else obj_get m' k
  end.

(** [m[k] = v]: an existing key keeps its place, a new one goes last. *)
Fixpoint obj_set (m : obj) (k : string) (v : V) : obj :=
  match m with
  | [] => [(k, v)]
  | (k', v') :: m' =>
      if String.eqb k' k then (k', v) :: m' else (k', v') :: obj_set m' k v
  end.

(** [Object.values(m)]: insertion order (no key is an array index). *)
Definition obj_values (m : obj) : list V := map snd m.
End Obj.
Arguments obj : clear implicits.

(* ------------------------------------------------------------------ *)
(** ** Data model *)

Record observation : Type := { lp : Q }.

Record support : Type := mkSupport {
  s_zone : string;
  bounceCount : nat;
  confirmedResistance : bool
}.

Record resistance : Type := mkResistance {
  r_zone : string;
  dropCount : nat
}.

Record highlight : Type := mkHighlight {
  h_zone : string;
  supportBounceCount : nat;
  resistanceDropCount : nat;
  h_type : string
}.

Record zones : Type := mkZones {
  supportZones : list support;
  resistanceZones : list resistance;
  highlightedZones : list highlight
}.

(** The four collections the main loop grows. *)
Record scan : Type := mkScan {
  rawSupports : list support;
  rawResistances : list resistance;
  checkedSupports : list Q;
  checkedResistances : list Q
}.

(** [set.add(p)] on a [Set] of numbers kept in insertion order. *)
Definition set_add (p : Q) (s : list Q) : list Q :=
  if existsb (Qeq_bool p) s then s else s ++ [p].

(* ------------------------------------------------------------------ *)
(** ** The detector *)

Section Detector.
Variable priceData : list observation.

(** [priceData[i].lp] for an index inside the array. *)
Definition lp_at (i : nat) : Q := lp (nth i priceData {| lp := 0 |}).

(** *** trendLineMatch (lines 151-169)

    The loop variable runs over [baseIndex + 1 <= i < baseIndex + range],
    [i < priceData.length]. *)

Definition expected (baseIndex : nat) (type : string) (i : nat) : Q :=
  let base := lp_at baseIndex in
  if String.eqb type "support"
  then base - base * (1 # 100) * inject_Z (Z.of_nat (i - baseIndex))
  else base + base * (1 # 100) * inject_Z (Z.of_nat (i - baseIndex)).

Definition on_trend (baseIndex : nat) (type : string) (i : nat) : bool :=
  let e := expected baseIndex type i in
  let actual := lp_at i in
  JS.le (JS.div (Qabs (actual - e)) e) (3 # 100).

Definition trendCount (baseIndex range : nat) (type : string) : nat :=
  fold_left
    (fun count i => if on_trend baseIndex type i then S count else count)
    (JS.range (baseIndex + 1)
              (Nat.min (baseIndex + range) (List.length priceData)))
    O.

Definition trendLineMatch (baseIndex range : nat) (type : string) : bool :=
  (3 <=? trendCount baseIndex range type)%nat.

(** *** actedAsResistanceBefore (lines 177-192)

    Two nested loops that return true at the first hit.  Every read is
    inside the array when [index <= priceData.length], which holds at the
    only call site. *)

Definition actedAsResistanceBefore (index : nat) (price : Q) : bool :=
  existsb
    (fun i =>
       let prevPrice := lp_at i in
       JS.le (JS.div (Qabs (prevPrice - price)) price) (1 # 20)
       && existsb
            (fun j =>
               let dropPrice := lp_at j in
               JS.ge (JS.div (prevPrice - dropPrice) prevPrice) (1 # 10))
            (JS.range (i + 1) index))
    (JS.range 0 index).

(** *** Main loop (lines 208-282) *)

(** [Math.abs(priceData[j].lp - basePrice) / basePrice <= 0.05]. *)
Definition near (basePrice : Q) (j : nat) : bool :=
  JS.le (JS.div (Qabs (lp_at j - basePrice)) basePrice) (1 # 20).

(** [(priceData[k].lp - priceData[j].lp) / priceData[j].lp >= 0.1]. *)
Definition rises (j k : nat) : bool :=
  JS.ge (JS.div (lp_at k - lp_at j) (lp_at j)) (1 # 10).

(** [(priceData[j].lp - priceData[k].lp) / priceData[j].lp >= 0.1]. *)
Definition drops (j k : nat) : bool :=
  JS.ge (JS.div (lp_at j - lp_at k) (lp_at j)) (1 # 10).

(** The [k] loop: at the first reversal, add one when the trend line
    matches, and break. *)
Fixpoint first_reversal (reversal : nat -> bool) (trend : bool)
         (ks : list nat) : nat :=
  match ks with
  | [] => O
  | k :: ks' =>
      if reversal k then (if trend then 1%nat else O)
      else first_reversal reversal trend ks'
  end.

(** The [j] loop, shared by the support path ([rises], "support") and the
    resistance path ([drops], "resistance"). *)
Definition countReversals (reversal : nat -> nat -> bool) (type : string)
           (i : nat) : nat :=
  let basePrice := lp_at i in
  fold_left
    (fun count j =>
       if near basePrice j then
         (count + first_reversal (reversal j) (trendLineMatch i 10 type)
                                 (JS.range (j + 1) (List.length priceData)))%nat
       else count)
    (JS.range (i + 1) (List.length priceData))
    O.

(** [(p) => Math.abs(p - basePrice) / basePrice < 0.05]. *)
Definition closeTo (basePrice : Q) (p : Q) : bool :=
  JS.lt (JS.div (Qabs (p - basePrice)) basePrice) (1 # 20).

(** Support detection (lines 218-251). *)
Definition supportStep (i : nat) (st : scan) : scan :=
  let basePrice := lp_at i in
  if negb (existsb (closeTo basePrice) (checkedSupports st)) then
    let bounceCount := countReversals rises "support" i in
    let actedAsRes := actedAsResistanceBefore i basePrice in
    if (3 <=? bounceCount)%nat then
      {| rawSupports :=
           rawSupports st
             ++ [ {| s_zone := toFixed2 basePrice;
                     bounceCount := bounceCount;
                     confirmedResistance := actedAsRes |} ];
         rawResistances := rawResistances st;
         checkedSupports := set_add basePrice (checkedSupports st);
         checkedResistances := checkedResistances st |}
    else st
  else st.

(** Resistance detection (lines 257-281). *)
Definition resistanceStep (i : nat) (st : scan) : scan :=
  let basePrice := lp_at i in
  if negb (existsb (closeTo basePrice) (checkedResistances st)) then
    let dropCount := countReversals drops "resistance" i in
    if (3 <=? dropCount)%nat then
      {| rawSupports := rawSupports st;
         rawResistances :=
           rawResistances st
             ++ [ {| r_zone := toFixed2 basePrice;
                     dropCount := dropCount |} ];
         checkedSupports := checkedSupports st;
         checkedResistances := set_add basePrice (checkedResistances st) |}
    else st
  else st.

(** One iteration of the main loop body at index [i]; the first test is
    [if (basePrice < minValidPrice) continue]. *)
Definition step (minValidPrice : Q) (st : scan) (i : nat) : scan :=
  let basePrice := lp_at i in
  if JS.ltb basePrice minValidPrice then st
  else resistanceStep i (supportStep i st).

Definition emptyScan : scan :=
  {| rawSupports := []; rawResistances := [];
     checkedSupports := []; checkedResistances := [] |}.

Definition mainLoop (minValidPrice : Q) : scan :=
  fold_left (step minValidPrice) (JS.range 0 (List.length priceData)) emptyScan.

End Detector.

(** *** Aggregation (lines 289-317)

    [!map[z]] is true exactly when the key is absent: the values are
    objects. *)

Definition aggregateSupports (l : list support) : obj support :=
  fold_left
    (fun m s =>
       let z := s_zone s in
       match obj_get m z with
       | None => obj_set m z s
       | Some a =>
           obj_set m z
             {| s_zone := s_zone a;
                bounceCount := bounceCount a + bounceCount s;
                confirmedResistance :=
                  confirmedResistance a || confirmedResistance s |}
       end)
    l [].

Definition aggregateResistances (l : list resistance) : obj resistance :=
  fold_left
    (fun m r =>
       let z := r_zone r in
       match obj_get m z with
       | None => obj_set m z r
       | Some a =>
           obj_set m z
             {| r_zone := r_zone a; dropCount := dropCount a + dropCount r |}
       end)
    l [].

(** *** Highlighted zones (lines 324-350) *)

(** [priceDiff / parseFloat(support.zone) <= 0.05]. *)
Definition overlaps (s : support) (r : resistance) : bool :=
  match parseFloat (s_zone s), parseFloat (r_zone r) with
  | Some sp, Some rp => JS.le (JS.div (Qabs (sp - rp)) sp) (1 # 20)
  | _, _ => false
  end.

Definition overlapType : string := "support-resistance overlap".

Definition highlightPair (m : obj highlight) (s : support) (r : resistance)
  : obj highlight :=
  if overlaps s r then
    let m1 :=
      match obj_get m (s_zone s) with
      | None =>
          obj_set m (s_zone s)
            {| h_zone := s_zone s; supportBounceCount := 0;
               resistanceDropCount := 0; h_type := overlapType |}
      | Some _ => m
      end in
    match obj_get m1 (s_zone s) with
    | Some h =>
        obj_set m1 (s_zone s)
          {| h_zone := h_zone h;
             supportBounceCount := supportBounceCount h + bounceCount s;
             resistanceDropCount :=
               resistanceDropCount h + JS.or0 (dropCount r);
             h_type := h_type h |}
    | None => m1
    end
  else m.

Definition tempHighlights (ss : list support) (rs : list resistance)
  : obj highlight :=
  fold_left (fun m s => fold_left (fun m' r => highlightPair m' s r) rs m)
            ss [].

(** *** findSupportLevels (lines 134-358) *)

(** [priceData[priceData.length - 1].lp]; [None]: the read throws (empty
    input, the element is [undefined]). *)
Definition latestPrice (priceData : list observation) : option Q :=
  match nth_error priceData (List.length priceData - 1) with
  | None => None
  | Some last => Some (lp last)
  end.

Definition findSupportLevels (priceData : list observation) : option zones :=
  match latestPrice priceData with
  | None => None
  | Some latest =>
      let minValidPrice := latest * (1 # 2) in
      let st := mainLoop priceData minValidPrice in
      let aggregatedSupportZones :=
        js_sort s_zone (obj_values (aggregateSupports (rawSupports st))) in
      let aggregatedResistanceZones :=
        js_sort r_zone
                (obj_values (aggregateResistances (rawResistances st))) in
      let highlighted :=
        js_sort h_zone
                (obj_values (tempHighlights aggregatedSupportZones
                                            aggregatedResistanceZones)) in
      Some {| supportZones := aggregatedSupportZones;
              resistanceZones := aggregatedResistanceZones;
              highlightedZones := highlighted |}
  end.

Definition prices (l : list Q) : list observation :=
  map (fun p => {| lp := p |}) l.

(* ------------------------------------------------------------------ *)
(** ** Definitions used by the statements *)



(** The keys of an object, in insertion order. *)
Definition keys {V : Type} (m : obj V) : list string := map fst m.

(** *** What the main loop has emitted *)

Section Emitted.
Variable priceData : list observation.

(** The record pushed for base index [i]. *)
Definition support_at (i : nat) : support :=
  {| s_zone := toFixed2 (lp_at priceData i);
     bounceCount := countReversals priceData (rises priceData) "support" i;
     confirmedResistance :=
       actedAsResistanceBefore priceData i (lp_at priceData i) |}.

Definition resistance_at (i : nat) : resistance :=
  {| r_zone := toFixed2 (lp_at priceData i);
     dropCount := countReversals priceData (drops priceData) "resistance" i |}.

(** No two accepted bases are close: the later one was not within 5% of an
    earlier one. *)
Definition spaced (bs : list nat) : Prop :=
  ForallOrdPairs
    (fun b' b => closeTo (lp_at priceData b) (lp_at priceData b') = false) bs.

Definition accepted (minValidPrice : Q) (count : nat -> nat) (b : nat) : Prop :=
  JS.ltb (lp_at priceData b) minValidPrice = false /\ (3 <= count b)%nat.

(** The raw lists are the records of the accepted base indices, in order,
    and the checked sets hold their prices. *)
Definition scan_inv (minValidPrice : Q) (st : scan) (sb rb : list nat) : Prop :=
  (rawSupports st = map support_at sb
   /\ checkedSupports st = map (lp_at priceData) sb
   /\ Forall (accepted minValidPrice
                (countReversals priceData (rises priceData) "support")) sb
   /\ spaced sb)
  /\ (rawResistances st = map resistance_at rb
      /\ checkedResistances st = map (lp_at priceData) rb
      /\ Forall (accepted minValidPrice
                   (countReversals priceData (drops priceData) "resistance")) rb
      /\ spaced rb).

End Emitted.

(** Order of two zone texts by the numbers they denote. *)
Definition zone_le (a b : string) : Prop :=
  match parseFloat a, parseFloat b with
  | Some x, Some y => x <= y
  | _, _ => False
  end.


Definition numeric (z : string) : Prop := exists q, parseFloat z = Some q.

(** The raw zones whose canonical price text is [z]. *)
Definition supportGroup (l : list support) (z : string) : list support :=
  filter (fun s => String.eqb (s_zone s) z) l.

Definition resistanceGroup (l : list resistance) (z : string)
  : list resistance :=
  filter (fun r => String.eqb (r_zone r) z) l.

(** The merged record of a group, when the group is not empty. *)
Definition spec_mergedSupport (l : list support) (z : string)
  : option support :=
  match supportGroup l z with
  | [] => None
  | g => Some {| s_zone := z;
                 bounceCount := list_sum (map bounceCount g);
                 confirmedResistance := existsb confirmedResistance g |}
  end.

Definition spec_mergedResistance (l : list resistance) (z : string)
  : option resistance :=
  match resistanceGroup l z with
  | [] => None
  | g => Some {| r_zone := z; dropCount := list_sum (map dropCount g) |}
  end.

(** The overlap record of a support that matched at least one resistance. *)
Definition spec_overlapRecord (rs : list resistance) (s : support)
  : highlight :=
  let matching := filter (overlaps s) rs in
  {| h_zone := s_zone s;
     supportBounceCount := list_sum (map (fun _ => bounceCount s) matching);
     resistanceDropCount := list_sum (map dropCount matching);
     h_type := "support-resistance overlap" |}.

Definition spec_overlapRecords (ss : list support) (rs : list resistance)
  : list highlight :=
  map (spec_overlapRecord rs)
      (filter (fun s => existsb (overlaps s) rs) ss).

(** *** The two directions of the trend validator *)

Inductive direction : Type := ForSupport | ForResistance.

Definition direction_name (d : direction) : string :=
  match d with
  | ForSupport => "support"
  | ForResistance => "resistance"
  end.

(** *** Sample series *)

(** A decline of 1% per step from 100, a bounce to 110, an incline of about
    1% per step from 104 and a drop to 90. *)
Definition sample : list observation :=
  prices [100 # 1; 99 # 1; 98 # 1; 97 # 1; 110 # 1;
          104 # 1; 105 # 1; 106 # 1; 107 # 1; 90 # 1].


(** Two bases, 0.0100 and 0.0120, more than 5% apart, with the same
    two-decimal text. *)
Definition pennies : list observation :=
  prices [100 # 10000; 99 # 10000; 98 # 10000; 97 # 10000; 140 # 10000;
          1200 # 100000; 1188 # 100000; 1176 # 100000; 1164 # 100000;
          140 # 10000].

(** A touch of 100 and a fall to 85 before the base at index 4. *)
Definition revisited : list observation :=
  prices [100 # 1; 85 # 1; 120 # 1; 130 # 1; 100 # 1;
          99 # 1; 98 # 1; 97 # 1; 110 # 1].

(** A series with negative prices, outside the data model. *)
Definition below_zero : list observation :=
  prices [- (1 # 1000); 1 # 1000; 99 # 100000; 98 # 100000; 97 # 100000;
          12 # 10000; - (2 # 1000)].

(** The result with no zone. *)
Definition noZones : zones :=
  {| supportZones := []; resistanceZones := []; highlightedZones := [] |}.


(** *** First revision (lines 2-132)

    Its helpers and its main loop are those of the second revision; it
    returns the raw lists and pushes one overlap record per matching pair,
    with the pair average as zone and as denominator of the test. *)

(** The body of the inner loop of lines 113-129. *)
Definition pushOverlap_first (acc : list highlight) (s : support)
           (r : resistance) : list highlight :=
  match parseFloat (s_zone s), parseFloat (r_zone r) with
  | Some sp, Some rp =>
      let priceDiff := Qabs (sp - rp) in
      let avgPrice := (sp + rp) / 2 in
      if JS.le (JS.div priceDiff avgPrice) (1 # 20) then
        acc ++ [ {| h_zone := toFixed2 avgPrice;
                    supportBounceCount := bounceCount s;
                    resistanceDropCount := JS.or0 (dropCount r);
                    h_type := "support-resistance overlap" |} ]
      else acc
  | _, _ => acc
  end.

Definition highlights_first (ss : list support) (rs : list resistance)
  : list highlight :=
  fold_left (fun acc s => fold_left (fun acc' r => pushOverlap_first acc' s r)
                                    rs acc)
            ss [].

Definition findSupportLevels_first (priceData : list observation)
  : option zones :=
  match latestPrice priceData with
  | None => None
  | Some latest =>
      let minValidPrice := latest * (1 # 2) in
      let st := mainLoop priceData minValidPrice in
      Some {| supportZones := rawSupports st;
              resistanceZones := rawResistances st;
              highlightedZones :=
                highlights_first (rawSupports st) (rawResistances st) |}
  end.

(* ------------------------------------------------------------------ *)
(** ** Binary64

    The scanner and the overlap matcher once more, on the numbers the
    program computes with: IEEE 754 binary64, as Rocq's primitive floats.
    [Prim2SF] gives the sign, mantissa and exponent of a double; the text
    functions work on that exact value. *)

Module B64.

(** The literals of the source, as the doubles they denote. *)
Definition c_0_01 : float := 0x1.47ae147ae147bp-7%float.
Definition c_0_03 : float := 0x1.eb851eb851eb8p-6%float.
Definition c_0_05 : float := 0x1.999999999999ap-5%float.
Definition c_0_1 : float := 0x1.999999999999ap-4%float.
Definition c_0_5 : float := 0x1p-1%float.
Definition c_2 : float := 0x1p+1%float.

(** An array index or a difference of indices as a number. *)
Definition of_nat (n : nat) : float :=
  PrimFloat.of_uint63 (Uint63.of_Z (Z.of_nat n)).

(** *** Rounding a positive rational to the nearest double (ties to even)

    [num / den] with 53 significant bits, fewer below 2^-1022 (the exponent
    is at least -1074), and infinity above the largest double. *)

Definition round_pos (num den : positive) : spec_float :=
  let a := Z.log2 (Zpos num) in
  let b := Z.log2 (Zpos den) in
  (* floor (log2 (num / den)) is a - b or a - b - 1 *)
  let l :=
    if (0 <=? a - b)%Z
    then (if (Zpos den * 2 ^ (a - b) <=? Zpos num)%Z
          then a - b else a - b - 1)%Z
    else (if (Zpos den <=? Zpos num * 2 ^ (b - a))%Z
          then a - b else a - b - 1)%Z in
  let e := Z.max (l - 52) (-1074) in
  let n := if (0 <=? e)%Z then Zpos num else (Zpos num * 2 ^ (- e))%Z in
  let d := if (0 <=? e)%Z then (Zpos den * 2 ^ e)%Z else Zpos den in
  let q := (n / d)%Z in
  let r := (n mod d)%Z in
  let up :=
    match (2 * r ?= d)%Z with
    | Gt => true
    | Eq => Z.odd q
    | Lt => false
    end in
  let m := if up then (q + 1)%Z else q in
  let (m', e') := if (m =? 2 ^ 53)%Z then ((2 ^ 52)%Z, (e + 1)%Z) else (m, e) in
  if (971 <? e')%Z then S754_infinity false
  else match m' with
       | Zpos p => S754_finite false p e'
       | _ => S754_zero false
       end.

(** The exact value [m * 2^e] of a finite double with mantissa [m] and
    exponent [e]. *)
Definition exact_pos (m : positive) (e : Z) : Q :=
  if (0 <=? e)%Z then inject_Z (Zpos m * 2 ^ e)
  else Zpos m # Z.to_pos (2 ^ (- e)).

(** *** Number::toString for an integer of 10^21 and above *)

Definition digits_of (n : Z) : string :=
  NilZero.string_of_uint (N.to_uint (Z.to_N n)).

(** The shortest digit string [s] and the exponent [n] with [s * 10^(n-k)]
    rounding to the double [(m, e)]; the closest such [s], the even one on a
    tie. *)
Fixpoint shortest (fuel : nat) (k : Z) (x : Z) (n : Z) (target : spec_float)
  : Z * Z :=
  match fuel with
  | O => (x, n)
  | S fuel' =>
      let p := (10 ^ (n - k))%Z in
      let lo := (x / p)%Z in
      let ok c :=
        match c with
        | Zpos cp =>
            match round_pos (Pos.mul cp (Z.to_pos p)) 1, target with
            | S754_finite _ m1 e1, S754_finite _ m2 e2 =>
                Pos.eqb m1 m2 && (e1 =? e2)%Z
            | _, _ => false
            end
        | _ => false
        end in
      let dist c := Z.abs (c * p - x) in
      let pick :=
        match ok lo, ok (lo + 1)%Z with
        | true, true =>
            match (dist lo ?= dist (lo + 1))%Z with
            | Lt => Some lo
            | Gt => Some (lo + 1)%Z
            | Eq => Some (if Z.even lo then lo else (lo + 1)%Z)
            end
        | true, false => Some lo
        | false, true => Some (lo + 1)%Z
        | false, false => None
        end in
      match pick with
      | Some c =>
          if (c =? 10 ^ k)%Z then ((10 ^ (k - 1))%Z, (n + 1)%Z) else (c, n)
      | None => shortest fuel' (k + 1)%Z x n target
      end
  end.

Definition strip_zeros_fuel : nat := 400.

(** Digits without the trailing zeros. *)
Fixpoint strip_zeros (fuel : nat) (s : Z) : Z :=
  match fuel with
  | O => s
  | S fuel' =>
      if ((s mod 10 =? 0) && negb (s =? 0))%Z
      then strip_zeros fuel' (s / 10)%Z else s
  end.

Definition toString_large (m : positive) (e : Z) : string :=
  let x := (Zpos m * 2 ^ e)%Z in
  let n := Z.of_nat (String.length (digits_of x)) in
  let (s0, n') := shortest 17 1 x n (S754_finite false m e) in
  let s := strip_zeros strip_zeros_fuel s0 in
  let ds := digits_of s in
  let mant :=
    match ds with
    | String c EmptyString => ds
    | String c r => String c (String "." r)
    | EmptyString => ds
    end in
  (mant ++ "e+" ++ digits_of (n' - 1))%string.

(** *** Number.prototype.toFixed(2) *)

(** The text of an exact value below 10^21. *)
Definition toFixed2_exact : Q -> string := toFixed2.

Definition toFixed2 (x : float) : string :=
  match Prim2SF x with
  | S754_nan => "NaN"
  | S754_infinity false => "Infinity"
  | S754_infinity true => "-Infinity"
  | S754_zero _ => "0.00"
  | S754_finite s m e =>
      let q := exact_pos m e in
      if Qle_bool (inject_Z (10 ^ 21)) q
      then ((if s then "-" else "") ++ toString_large m e)%string
      else toFixed2_exact (if s then - q else q)
  end.

(** *** parseFloat *)

Definition is_space (c : ascii) : bool :=
  let n := N_of_ascii c in
  (n =? 32)%N || ((9 <=? n)%N && (n <=? 13)%N).

Fixpoint trim_left (s : string) : string :=
  match s with
  | String c r => if is_space c then trim_left r else s
  | EmptyString => s
  end.

Definition starts_with (p s : string) : bool := String.prefix p s.

(** The mantissa digits and the decimal exponent of the longest prefix that
    is a decimal literal; [None] when there is no digit. *)
Definition scan_decimal (body : string) : option (N * Z) :=
  let (ip, rest) := span_digits body in
  let (fp, rest') :=
    match rest with
    | String c r => if Ascii.eqb c "." then span_digits r
                    else (EmptyString, rest)
    | EmptyString => (EmptyString, rest)
    end in
  if ((String.length ip =? 0) && (String.length fp =? 0))%nat then None
  else
    let ex :=
      match rest' with
      | String c r =>
          if Ascii.eqb c "e" || Ascii.eqb c "E" then
            let (neg, r') :=
              match r with
              | String c' r'' =>
                  if Ascii.eqb c' "-" then (true, r'')
                  else if Ascii.eqb c' "+" then (false, r'')
                  else (false, r)
              | EmptyString => (false, r)
              end in
            let (ed, _) := span_digits r' in
            if (String.length ed =? 0)%nat then 0%Z
            else let v := Z.of_N (N_of_digits ed) in
                 if neg then (- v)%Z else v
          else 0%Z
      | EmptyString => 0%Z
      end in
    Some (N_of_digits (ip ++ fp)%string,
          (ex - Z.of_nat (String.length fp))%Z).

(** [parseFloat(s)] as sign, mantissa and exponent of the double. *)
Definition parseFloat_sf (s : string) : spec_float :=
  let t := trim_left s in
  let (neg, body) :=
    match t with
    | String c r =>
        if Ascii.eqb c "-" then (true, r)
        else if Ascii.eqb c "+" then (false, r)
        else (false, t)
    | EmptyString => (false, t)
    end in
  if starts_with "Infinity" body then S754_infinity neg
  else
    match scan_decimal body with
    | None => S754_nan
    | Some (mant, ex) =>
        match mant with
        | N0 => S754_zero neg
        | Npos p =>
            let r := if (0 <=? ex)%Z
                     then round_pos (p * Z.to_pos (10 ^ ex)) 1
                     else round_pos p (Z.to_pos (10 ^ (- ex))) in
            match r with
            | S754_finite _ m e => S754_finite neg m e
            | S754_infinity _ => S754_infinity neg
            | S754_zero _ => S754_zero neg
            | S754_nan => S754_nan
            end
        end
    end.

Definition parseFloat (s : string) : float := SF2Prim (parseFloat_sf s).

(** *** The comparator of the sorts

    [(a, b) => parseFloat(a.zone) - parseFloat(b.zone)].  The difference of
    two doubles is positive exactly when the first is the greater one (it
    is zero only for equal operands, subnormals included); with a NaN
    operand, or two infinities of one sign, it is NaN, which
    [Array.prototype.sort] takes as zero. *)

Inductive xnum : Type :=
| XNaN
| XNegInf
| XFin (q : Q)
| XPosInf.

Definition value (f : spec_float) : xnum :=
  match f with
  | S754_nan => XNaN
  | S754_infinity true => XNegInf
  | S754_infinity false => XPosInf
  | S754_zero _ => XFin 0
  | S754_finite s m e => XFin (if s then - exact_pos m e else exact_pos m e)
  end.

Definition x_ltb (a b : xnum) : bool :=
  match a, b with
  | XNaN, _ | _, XNaN => false
  | XNegInf, XNegInf => false
  | XNegInf, _ => true
  | _, XNegInf => false
  | XPosInf, _ => false
  | XFin _, XPosInf => true
  | XFin x, XFin y => JS.ltb x y
  end.

Definition cmp_gt (a b : string) : bool :=
  x_ltb (value (parseFloat_sf b)) (value (parseFloat_sf a)).

(** The comparator as the source computes it, for comparison. *)
Definition cmp_difference (a b : string) : float :=
  PrimFloat.sub (parseFloat a) (parseFloat b).

Section Sort.
Context {A : Type} (key : A -> string).

Fixpoint insert_sorted (x : A) (l : list A) : list A :=
  match l with
  | [] => [x]
  | y :: l' =>
      if cmp_gt (key y) (key x) then x :: l else y :: insert_sorted x l'
  end.

(** [arr.sort(cmp)]: the sort is stable. *)
Definition js_sort (l : list A) : list A :=
  fold_left (fun acc x => insert_sorted x acc) l [].
End Sort.

(** *** Data *)

Record observation : Type := { lp : float }.

(** The four collections the main loop grows. *)
Record scan : Type := mkScan {
  rawSupports : list support;
  rawResistances : list resistance;
  checkedSupports : list float;
  checkedResistances : list float
}.

(** SameValueZero, the equality of [Set]: NaN equals NaN, and the two zeros
    are equal. *)
Definition same_value_zero (x y : float) : bool :=
  PrimFloat.eqb x y || (PrimFloat.is_nan x && PrimFloat.is_nan y).

(** [set.add(p)] on a [Set] kept in insertion order; a negative zero is
    stored as zero. *)
Definition set_add (p : float) (s : list float) : list float :=
  if existsb (same_value_zero p) s then s
  else s ++ [if PrimFloat.is_zero p then PrimFloat.zero else p].

(** *** The detector *)

Section Detector.
Variable priceData : list observation.

(** [priceData[i].lp] for an index inside the array. *)
Definition lp_at (i : nat) : float :=
  lp (nth i priceData {| lp := PrimFloat.zero |}).

(** trendLineMatch (lines 151-169): the loop variable runs over
    [baseIndex + 1 <= i < baseIndex + range], [i < priceData.length]. *)

Definition expected (baseIndex : nat) (type : string) (i : nat) : float :=
  let base := lp_at baseIndex in
  if String.eqb type "support"
  then PrimFloat.sub base
         (PrimFloat.mul (PrimFloat.mul base c_0_01) (of_nat (i - baseIndex)))
  else PrimFloat.add base
         (PrimFloat.mul (PrimFloat.mul base c_0_01) (of_nat (i - baseIndex))).

Definition on_trend (baseIndex : nat) (type : string) (i : nat) : bool :=
  let e := expected baseIndex type i in
  let actual := lp_at i in
  PrimFloat.leb (PrimFloat.div (PrimFloat.abs (PrimFloat.sub actual e)) e)
                c_0_03.

Definition trendCount (baseIndex range : nat) (type : string) : nat :=
  fold_left
    (fun count i => if on_trend baseIndex type i then S count else count)
    (JS.range (baseIndex + 1)
              (Nat.min (baseIndex + range) (List.length priceData)))
    O.

Definition trendLineMatch (baseIndex range : nat) (type : string) : bool :=
  (3 <=? trendCount baseIndex range type)%nat.

(** actedAsResistanceBefore (lines 177-192): two nested loops that return
    true at the first hit. *)
Definition actedAsResistanceBefore (index : nat) (price : float) : bool :=
  existsb
    (fun i =>
       let prevPrice := lp_at i in
       PrimFloat.leb
         (PrimFloat.div (PrimFloat.abs (PrimFloat.sub prevPrice price)) price)
         c_0_05
       && existsb
            (fun j =>
               let dropPrice := lp_at j in
               PrimFloat.leb c_0_1
                 (PrimFloat.div (PrimFloat.sub prevPrice dropPrice) prevPrice))
            (JS.range (i + 1) index))
    (JS.range 0 index).

(** [Math.abs(priceData[j].lp - basePrice) / basePrice <= 0.05]. *)
Definition near (basePrice : float) (j : nat) : bool :=
  PrimFloat.leb
    (PrimFloat.div (PrimFloat.abs (PrimFloat.sub (lp_at j) basePrice))
                   basePrice)
    c_0_05.

(** [(priceData[k].lp - priceData[j].lp) / priceData[j].lp >= 0.1]. *)
Definition rises (j k : nat) : bool :=
  PrimFloat.leb c_0_1
    (PrimFloat.div (PrimFloat.sub (lp_at k) (lp_at j)) (lp_at j)).

(** [(priceData[j].lp - priceData[k].lp) / priceData[j].lp >= 0.1]. *)
Definition drops (j k : nat) : bool :=
  PrimFloat.leb c_0_1
    (PrimFloat.div (PrimFloat.sub (lp_at j) (lp_at k)) (lp_at j)).

(** The [j] loop with its inner [k] loop ([first_reversal]), shared by the
    support path ([rises], "support") and the resistance path ([drops],
    "resistance"). *)
Definition countReversals (reversal : nat -> nat -> bool) (type : string)
           (i : nat) : nat :=
  let basePrice := lp_at i in
  fold_left
    (fun count j =>
       if near basePrice j then
         (count + first_reversal (reversal j) (trendLineMatch i 10 type)
                                 (JS.range (j + 1) (List.length priceData)))%nat
       else count)
    (JS.range (i + 1) (List.length priceData))
    O.

(** [(p) => Math.abs(p - basePrice) / basePrice < 0.05]. *)
Definition closeTo (basePrice : float) (p : float) : bool :=
  PrimFloat.ltb
    (PrimFloat.div (PrimFloat.abs (PrimFloat.sub p basePrice)) basePrice)
    c_0_05.

(** Support detection (lines 218-251). *)
Definition supportStep (i : nat) (st : scan) : scan :=
  let basePrice := lp_at i in
  if negb (existsb (closeTo basePrice) (checkedSupports st)) then
    let bounceCount := countReversals rises "support" i in
    let actedAsRes := actedAsResistanceBefore i basePrice in
    if (3 <=? bounceCount)%nat then
      {| rawSupports :=
           rawSupports st
             ++ [ {| s_zone := toFixed2 basePrice;
                     bounceCount := bounceCount;
                     confirmedResistance := actedAsRes |} ];
         rawResistances := rawResistances st;
         checkedSupports := set_add basePrice (checkedSupports st);
         checkedResistances := checkedResistances st |}
    else st
  else st.

(** Resistance detection (lines 257-281). *)
Definition resistanceStep (i : nat) (st : scan) : scan :=
  let basePrice := lp_at i in
  if negb (existsb (closeTo basePrice) (checkedResistances st)) then
    let dropCount := countReversals drops "resistance" i in
    if (3 <=? dropCount)%nat then
      {| rawSupports := rawSupports st;
         rawResistances :=
           rawResistances st
             ++ [ {| r_zone := toFixed2 basePrice;
                     dropCount := dropCount |} ];
         checkedSupports := checkedSupports st;
         checkedResistances := set_add basePrice (checkedResistances st) |}
    else st
  else st.

(** One iteration of the main loop body at index [i]; the first test is
    [if (basePrice < minValidPrice) continue]. *)
Definition step (minValidPrice : float) (st : scan) (i : nat) : scan :=
  let basePrice := lp_at i in
  if PrimFloat.ltb basePrice minValidPrice then st
  else resistanceStep i (supportStep i st).

Definition emptyScan : scan :=
  {| rawSupports := []; rawResistances := [];
     checkedSupports := []; checkedResistances := [] |}.

Definition mainLoop (minValidPrice : float) : scan :=
  fold_left (step minValidPrice) (JS.range 0 (List.length priceData)) emptyScan.

End Detector.

(** *** Highlighted zones (lines 324-350) *)

(** [priceDiff / parseFloat(support.zone) <= 0.05]. *)
Definition overlaps (s : support) (r : resistance) : bool :=
  let priceDiff :=
    PrimFloat.abs (PrimFloat.sub (parseFloat (s_zone s))
                                 (parseFloat (r_zone r))) in
  PrimFloat.leb (PrimFloat.div priceDiff (parseFloat (s_zone s))) c_0_05.

Definition highlightPair (m : obj highlight) (s : support) (r : resistance)
  : obj highlight :=
  if overlaps s r then
    let m1 :=
      match obj_get m (s_zone s) with
      | None =>
          obj_set m (s_zone s)
            {| h_zone := s_zone s; supportBounceCount := 0;
               resistanceDropCount := 0; h_type := overlapType |}
      | Some _ => m
      end in
    match obj_get m1 (s_zone s) with
    | Some h =>
        obj_set m1 (s_zone s)
          {| h_zone := h_zone h;
             supportBounceCount := supportBounceCount h + bounceCount s;
             resistanceDropCount :=
               resistanceDropCount h + JS.or0 (dropCount r);
             h_type := h_type h |}
    | None => m1
    end
  else m.

Definition tempHighlights (ss : list support) (rs : list resistance)
  : obj highlight :=
  fold_left (fun m s => fold_left (fun m' r => highlightPair m' s r) rs m)
            ss [].

(** *** findSupportLevels (lines 134-358) *)

(** [priceData[priceData.length - 1].lp]; [None]: the read throws (empty
    input, the element is [undefined]). *)
Definition latestPrice (priceData : list observation) : option float :=
  match nth_error priceData (List.length priceData - 1) with
  | None => None
  | Some last => Some (lp last)
  end.

Definition findSupportLevels (priceData : list observation) : option zones :=
  match latestPrice priceData with
  | None => None
  | Some latest =>
      let minValidPrice := PrimFloat.mul latest c_0_5 in
      let st := mainLoop priceData minValidPrice in
      let aggregatedSupportZones :=
        js_sort s_zone (obj_values (aggregateSupports (rawSupports st))) in
      let aggregatedResistanceZones :=
        js_sort r_zone
                (obj_values (aggregateResistances (rawResistances st))) in
      let highlighted :=
        js_sort h_zone
                (obj_values (tempHighlights aggregatedSupportZones
                                            aggregatedResistanceZones)) in
      Some {| supportZones := aggregatedSupportZones;
              resistanceZones := aggregatedResistanceZones;
              highlightedZones := highlighted |}
  end.

(** *** First revision (lines 2-132)

    Its helpers and its main loop are those of the second revision; it
    returns the raw lists and pushes one overlap record per matching pair,
    with the pair average as zone and as denominator of the test. *)

(** The body of the inner loop of lines 113-129. *)
Definition pushOverlap_first (acc : list highlight) (s : support)
           (r : resistance) : list highlight :=
  let priceDiff :=
    PrimFloat.abs (PrimFloat.sub (parseFloat (s_zone s))
                                 (parseFloat (r_zone r))) in
  let avgPrice :=
    PrimFloat.div (PrimFloat.add (parseFloat (s_zone s))
                                 (parseFloat (r_zone r))) c_2 in
  if PrimFloat.leb (PrimFloat.div priceDiff avgPrice) c_0_05 then
    acc ++ [ {| h_zone := toFixed2 avgPrice;
                supportBounceCount := bounceCount s;
                resistanceDropCount := JS.or0 (dropCount r);
                h_type := "support-resistance overlap" |} ]
  else acc.

Definition highlights_first (ss : list support) (rs : list resistance)
  : list highlight :=
  fold_left (fun acc s => fold_left (fun acc' r => pushOverlap_first acc' s r)
                                    rs acc)
            ss [].

Definition findSupportLevels_first (priceData : list observation)
  : option zones :=
  match latestPrice priceData with
  | None => None
  | Some latest =>
      let minValidPrice := PrimFloat.mul latest c_0_5 in
      let st := mainLoop priceData minValidPrice in
      Some {| supportZones := rawSupports st;
              resistanceZones := rawResistances st;
              highlightedZones :=
                highlights_first (rawSupports st) (rawResistances st) |}
  end.

(** A series given by the decimal literals of its prices. *)
Definition series (l : list string) : list observation :=
  map (fun t => {| lp := parseFloat t |}) l.

(** *** The scanner in the words of its contract *)

Section SpecWords.
Variable priceData : list observation.

(** [j] is after the base [i] and within 5% of its price. *)
Definition spec_touch (i j : nat) : bool :=
  (i <? j)%nat
  && PrimFloat.leb
       (PrimFloat.div
          (PrimFloat.abs (PrimFloat.sub (lp_at priceData j)
                                        (lp_at priceData i)))
          (lp_at priceData i))
       c_0_05.

(** Some later observation is at least 10% above (below) the touch. *)
Definition spec_bounced (j : nat) : bool :=
  existsb
    (fun k => (j <? k)%nat
              && PrimFloat.leb c_0_1
                   (PrimFloat.div
                      (PrimFloat.sub (lp_at priceData k) (lp_at priceData j))
                      (lp_at priceData j)))
    (seq 0 (List.length priceData)).

Definition spec_dropped (j : nat) : bool :=
  existsb
    (fun k => (j <? k)%nat
              && PrimFloat.leb c_0_1
                   (PrimFloat.div
                      (PrimFloat.sub (lp_at priceData j) (lp_at priceData k))
                      (lp_at priceData j)))
    (seq 0 (List.length priceData)).

(** The touches of base [i] that are followed by a reversal. *)
Definition spec_touchCount (reversed : nat -> bool) (i : nat) : nat :=
  List.length (filter (fun j => spec_touch i j && reversed j)
                      (seq 0 (List.length priceData))).

Definition spec_bounceCount (i : nat) : nat :=
  if trendLineMatch priceData i 10 "support"
  then spec_touchCount spec_bounced i else O.

Definition spec_dropCount (i : nat) : nat :=
  if trendLineMatch priceData i 10 "resistance"
  then spec_touchCount spec_dropped i else O.

(** The record pushed for base index [i]. *)
Definition support_at (i : nat) : support :=
  {| s_zone := toFixed2 (lp_at priceData i);
     bounceCount := countReversals priceData (rises priceData) "support" i;
     confirmedResistance :=
       actedAsResistanceBefore priceData i (lp_at priceData i) |}.

Definition resistance_at (i : nat) : resistance :=
  {| r_zone := toFixed2 (lp_at priceData i);
     dropCount := countReversals priceData (drops priceData) "resistance" i |}.

(** The trend validator in the words of its contract, with [range] read as
    the comment of the helper has it: the number of following points to
    check. *)
Definition spec_trendCount (baseIndex range : nat) (d : direction) : nat :=
  List.length
    (filter
       (fun i =>
          let base := lp_at priceData baseIndex in
          let slope :=
            PrimFloat.mul (PrimFloat.mul base c_0_01) (of_nat (i - baseIndex))
          in
          let e := match d with
                   | ForSupport => PrimFloat.sub base slope
                   | ForResistance => PrimFloat.add base slope
                   end in
          (baseIndex <? i)%nat && (i <=? baseIndex + range)%nat
          && PrimFloat.leb
               (PrimFloat.div
                  (PrimFloat.abs (PrimFloat.sub (lp_at priceData i) e)) e)
               c_0_03)
       (seq 0 (List.length priceData))).

Definition spec_trendLineMatch (baseIndex range : nat) (d : direction)
  : bool :=
  (3 <=? spec_trendCount baseIndex range d)%nat.

End SpecWords.

(** Every raw record is the record of a base index that passed the
    ancient-zone filter and reached the count of three. *)
Definition emitted (priceData : list observation) (minValidPrice : float)
           (st : scan) : Prop :=
  Forall (fun s => exists i,
              s = support_at priceData i
              /\ PrimFloat.ltb (lp_at priceData i) minValidPrice = false
              /\ (3 <= countReversals priceData (rises priceData)
                                      "support" i)%nat)
         (rawSupports st)
  /\ Forall (fun r => exists i,
                 r = resistance_at priceData i
                 /\ PrimFloat.ltb (lp_at priceData i) minValidPrice = false
                 /\ (3 <= countReversals priceData (drops priceData)
                                         "resistance" i)%nat)
            (rawResistances st).

(** The overlap record of a support that matched at least one resistance. *)
Definition spec_overlapRecord (rs : list resistance) (s : support)
  : highlight :=
  let matching := filter (overlaps s) rs in
  {| h_zone := s_zone s;
     supportBounceCount := list_sum (map (fun _ => bounceCount s) matching);
     resistanceDropCount := list_sum (map dropCount matching);
     h_type := "support-resistance overlap" |}.

Definition spec_overlapRecords (ss : list support) (rs : list resistance)
  : list highlight :=
  map (spec_overlapRecord rs)
      (filter (fun s => existsb (overlaps s) rs) ss).

(** Order of two zone texts by the numbers they denote. *)
Definition x_le (a b : xnum) : Prop :=
  match a, b with
  | XNaN, _ | _, XNaN => False
  | XNegInf, _ => True
  | _, XNegInf => False
  | _, XPosInf => True
  | XPosInf, _ => False
  | XFin x, XFin y => x <= y
  end.

Definition zone_le (a b : string) : Prop :=
  x_le (value (parseFloat_sf a)) (value (parseFloat_sf b)).

(** The text denotes a number: [parseFloat] does not give NaN. *)
Definition numeric (z : string) : Prop := value (parseFloat_sf z) <> XNaN.

(** The pair average of the first revision, and its overlap test. *)
Definition pairAverage (s : support) (r : resistance) : float :=
  PrimFloat.div (PrimFloat.add (parseFloat (s_zone s))
                               (parseFloat (r_zone r))) c_2.

Definition overlaps_first_revision (s : support) (r : resistance) : bool :=
  PrimFloat.leb
    (PrimFloat.div
       (PrimFloat.abs (PrimFloat.sub (parseFloat (s_zone s))
                                     (parseFloat (r_zone r))))
       (pairAverage s r))
    c_0_05.

(** *** Sample series *)

(** Two declines of 1% per step, from 1000 and from 800, each ended by a
    rise of more than 10%. *)
Definition twoDeclines : list observation :=
  series ["1000"; "990"; "980"; "970"; "1100";
          "800"; "792"; "784"; "776"; "880"].

(** Two inclines of 1% per step, from 1000 and from 1200, each ended by a
    fall of more than 10%. *)
Definition twoInclines : list observation :=
  series ["1000"; "1010"; "1020"; "1030"; "900";
          "1200"; "1212"; "1224"; "1236"; "1080"].

(** A touch of 100 and a fall to 85 before the base at index 4. *)
Definition revisited : list observation :=
  series ["100"; "85"; "120"; "130"; "100"; "99"; "98"; "97"; "110"].

(** A decline of 1% per step from 100, a bounce to 110, an incline of about
    1% per step from 104 and a drop to 90. *)
Definition sample : list observation :=
  series ["100"; "99"; "98"; "97"; "110"; "104"; "105"; "106"; "107"; "90"].

(** Three touches of 100 followed by a rise to 120; the series is on the 1%
    decline from 100 at the first, the second and the tenth place after the
    base. *)
Definition lateDecline : list observation :=
  series ["100"; "99"; "98"; "105"; "120"; "120"; "120"; "120"; "120";
          "120"; "90"].

End B64.

(* ------------------------------------------------------------------ *)
(** ** Numbers and decimal text *)

(** *** Comparisons *)

Lemma ltb_lt x y : JS.ltb x y = true <-> x < y.
Proof.
  unfold JS.ltb. rewrite negb_true_iff.
  split; intro H.
  - apply Qnot_le_lt. intro L. apply Qle_bool_iff in L. congruence.
  - destruct (Qle_bool y x) eqn:E; auto.
    apply Qle_bool_iff in E. apply Qlt_not_le in H. contradiction.
Qed.

Lemma ltb_ge x y : JS.ltb x y = false <-> y <= x.
Proof.
  unfold JS.ltb. rewrite negb_false_iff. apply Qle_bool_iff.
Qed.

Lemma div_nonzero a b : ~ b == 0 -> JS.div a b = JS.Fin (a / b).
Proof.
  intro H. unfold JS.div.
  destruct (Qeq_bool b 0) eqn:E; auto.
  apply Qeq_bool_iff in E. contradiction.
Qed.

(** *** Decimal text *)

















Open Scope list_scope.

(* ------------------------------------------------------------------ *)
(** ** The scanning loops *)

(** *** Loops as counts *)

Lemma fold_count {A} (p : A -> bool) l c :
  fold_left (fun count i => if p i then S count else count) l c
  = (c + List.length (filter p l))%nat.
Proof.
  revert c. induction l as [|x l IH]; intro c; simpl.
  - lia.
  - rewrite IH. destruct (p x); simpl; lia.
Qed.

Lemma filter_seq_from (a : nat) (q : nat -> bool) len s :
  filter (fun j => (a <=? j)%nat && q j) (seq s len)
  = filter q (seq (Nat.max a s) (s + len - Nat.max a s)).
Proof.
  revert s. induction len as [|len IH]; intro s.
  - replace (s + 0 - Nat.max a s)%nat with O by lia. reflexivity.
  - cbn [seq filter]. rewrite IH.
    destruct (Nat.leb_spec a s) as [L|L]; cbn [andb].
    + replace (Nat.max a s) with s by lia.
      replace (Nat.max a (S s)) with (S s) by lia.
      replace (s + S len - s)%nat with (S len) by lia.
      replace (S s + len - S s)%nat with len by lia.
      reflexivity.
    + replace (Nat.max a (S s)) with (Nat.max a s) by lia.
      replace (S s + len - Nat.max a s)%nat
        with (s + S len - Nat.max a s)%nat by lia.
      reflexivity.
Qed.

Lemma filter_range (a n : nat) (q : nat -> bool) :
  filter q (JS.range (a + 1) n)
  = filter (fun j => (a <? j)%nat && q j) (seq 0 n).
Proof.
  unfold JS.range.
  rewrite (filter_ext (fun j => (a <? j)%nat && q j)
                      (fun j => (a + 1 <=? j)%nat && q j)).
  - rewrite filter_seq_from.
    replace (Nat.max (a + 1) 0) with (a + 1)%nat by lia.
    reflexivity.
  - intro j. unfold Nat.ltb. now replace (a + 1)%nat with (S a) by lia.
Qed.

Lemma existsb_filter {A} (p : A -> bool) l :
  existsb p l = negb (List.length (filter p l) =? 0)%nat.
Proof.
  induction l as [|x l IH]; simpl; auto.
  destruct (p x); simpl; auto.
Qed.

Lemma existsb_range (a n : nat) (q : nat -> bool) :
  existsb q (JS.range (a + 1) n)
  = existsb (fun k => (a <? k)%nat && q k) (seq 0 n).
Proof.
  rewrite !existsb_filter, filter_range. reflexivity.
Qed.

Lemma first_reversal_spec reversal trend ks :
  first_reversal reversal trend ks
  = if trend && existsb reversal ks then 1%nat else O.
Proof.
  induction ks as [|k ks IH]; simpl.
  - now rewrite andb_false_r.
  - destruct (reversal k); simpl.
    + now rewrite andb_true_r.
    + exact IH.
Qed.

Lemma countReversals_loop pd reversal type i :
  countReversals pd reversal type i
  = if trendLineMatch pd i 10 type
    then List.length
           (filter (fun j => near pd (lp_at pd i) j
                             && existsb (reversal j)
                                        (JS.range (j + 1) (List.length pd)))
                   (JS.range (i + 1) (List.length pd)))
    else O.
Proof.
  unfold countReversals.
  generalize (JS.range (i + 1) (List.length pd)) as js.
  assert (G : forall js c,
    fold_left
      (fun count j =>
         if near pd (lp_at pd i) j
         then (count + first_reversal (reversal j) (trendLineMatch pd i 10 type)
                         (JS.range (j + 1) (List.length pd)))%nat
         else count) js c
    = (c + if trendLineMatch pd i 10 type
           then List.length
                  (filter (fun j => near pd (lp_at pd i) j
                                    && existsb (reversal j)
                                         (JS.range (j + 1) (List.length pd)))
                          js)
           else O)%nat).
  { induction js as [|j js IH]; intro c; cbn [fold_left filter].
    - destruct (trendLineMatch pd i 10 type); simpl; lia.
    - rewrite IH, first_reversal_spec.
      destruct (near pd (lp_at pd i) j); cbn [andb]; [|reflexivity].
      destruct (trendLineMatch pd i 10 type); cbn [andb]; [|lia].
      destruct (existsb _ _); simpl; lia. }
  intro js. rewrite G. reflexivity.
Qed.

(** *** The count is bounded by the room left after the base *)

Lemma filter_length_le {A} (p : A -> bool) l :
  (List.length (filter p l) <= List.length l)%nat.
Proof.
  induction l as [|x l IH]; simpl; auto.
  destruct (p x); simpl; lia.
Qed.

Lemma countReversals_room pd reversal type i :
  (countReversals pd reversal type i <= List.length pd - (i + 2))%nat.
Proof.
  rewrite countReversals_loop.
  destruct (trendLineMatch pd i 10 type); [|lia].
  unfold JS.range at 2.
  destruct (List.length pd - (i + 1))%nat as [|m] eqn:E.
  - simpl. lia.
  - rewrite seq_S, filter_app. cbn [filter].
    replace (JS.range (i + 1 + m + 1) (List.length pd)) with (@nil nat)
      by (unfold JS.range;
          replace (List.length pd - (i + 1 + m + 1))%nat with O by lia;
          reflexivity).
    cbn [existsb].
    rewrite andb_false_r, app_nil_r.
    etransitivity; [apply filter_length_le|].
    rewrite length_seq. lia.
Qed.

Lemma near_zero_base pd base j : base == 0 -> near pd base j = false.
Proof.
  intro H. unfold near, JS.div.
  rewrite (Qeq_eq_bool _ _ H).
  destruct (JS.ltb 0 _); [reflexivity|].
  destruct (JS.ltb _ 0) eqn:E; [|reflexivity].
  apply ltb_lt in E. pose proof (Qabs_nonneg (lp_at pd j - base)). lra.
Qed.

Lemma countReversals_base_nonzero pd reversal type i :
  (0 < countReversals pd reversal type i)%nat -> ~ lp_at pd i == 0.
Proof.
  rewrite countReversals_loop. intros H Hz.
  destruct (trendLineMatch pd i 10 type); [|lia].
  rewrite (filter_ext _ (fun _ => false)) in H.
  - induction (JS.range (i + 1) (List.length pd)); simpl in H; auto. lia.
  - intro j. now rewrite near_zero_base.
Qed.

Lemma existsb_false {A} (f : A -> bool) l :
  existsb f l = false <-> Forall (fun x => f x = false) l.
Proof.
  induction l as [|x l IH]; simpl.
  - split; auto.
  - rewrite orb_false_iff, IH. split.
    + intros [? ?]. constructor; auto.
    + intro H. inversion H; auto.
Qed.

Lemma ForallOrdPairs_snoc {A} (R : A -> A -> Prop) l x :
  ForallOrdPairs R l -> Forall (fun y => R y x) l ->
  ForallOrdPairs R (l ++ [x]).
Proof.
  induction 1 as [|a l Ha Hl IH]; intro F; simpl.
  - constructor; constructor.
  - inversion F; subst. constructor.
    + apply Forall_app. split; auto.
    + apply IH. assumption.
Qed.

Lemma closeTo_same base p : ~ base == 0 -> p == base -> closeTo base p = true.
Proof.
  intros Hb E. unfold closeTo. rewrite div_nonzero by assumption.
  cbn [JS.lt]. apply ltb_lt.
  assert (Z : Qabs (p - base) == 0).
  { rewrite (Qabs_wd (p - base) 0) by lra. reflexivity. }
  rewrite Z. unfold Qdiv. rewrite Qmult_0_l. reflexivity.
Qed.

Lemma set_add_fresh base checked :
  ~ base == 0 -> existsb (closeTo base) checked = false ->
  set_add base checked = checked ++ [base].
Proof.
  intros Hb H. unfold set_add.
  destruct (existsb (Qeq_bool base) checked) eqn:E; [|reflexivity].
  apply existsb_exists in E as (p & Hp & Hq).
  apply Qeq_bool_iff in Hq.
  apply existsb_false in H. rewrite Forall_forall in H.
  specialize (H p Hp).
  rewrite closeTo_same in H; [discriminate | assumption | lra].
Qed.

Section StepFacts.
Variable pd : list observation.
Variable mv : Q.

Lemma supportStep_skip i st :
  existsb (closeTo (lp_at pd i)) (checkedSupports st) = true ->
  supportStep pd i st = st.
Proof. intro H. unfold supportStep. now rewrite H. Qed.

Lemma supportStep_few i st :
  (countReversals pd (rises pd) "support" i < 3)%nat ->
  supportStep pd i st = st.
Proof.
  intro H. unfold supportStep.
  destruct (negb _); [|reflexivity].
  destruct (Nat.leb_spec 3 (countReversals pd (rises pd) "support" i));
    [lia | reflexivity].
Qed.

Lemma supportStep_emit i st :
  existsb (closeTo (lp_at pd i)) (checkedSupports st) = false ->
  (3 <= countReversals pd (rises pd) "support" i)%nat ->
  supportStep pd i st
  = {| rawSupports := rawSupports st ++ [support_at pd i];
       rawResistances := rawResistances st;
       checkedSupports := checkedSupports st ++ [lp_at pd i];
       checkedResistances := checkedResistances st |}.
Proof.
  intros H C. unfold supportStep. rewrite H. cbn [negb].
  destruct (Nat.leb_spec 3 (countReversals pd (rises pd) "support" i));
    [|lia].
  rewrite set_add_fresh; [reflexivity | | assumption].
  apply (countReversals_base_nonzero pd (rises pd) "support"). lia.
Qed.

Lemma resistanceStep_skip i st :
  existsb (closeTo (lp_at pd i)) (checkedResistances st) = true ->
  resistanceStep pd i st = st.
Proof. intro H. unfold resistanceStep. now rewrite H. Qed.

Lemma resistanceStep_few i st :
  (countReversals pd (drops pd) "resistance" i < 3)%nat ->
  resistanceStep pd i st = st.
Proof.
  intro H. unfold resistanceStep.
  destruct (negb _); [|reflexivity].
  destruct (Nat.leb_spec 3 (countReversals pd (drops pd) "resistance" i));
    [lia | reflexivity].
Qed.

Lemma resistanceStep_emit i st :
  existsb (closeTo (lp_at pd i)) (checkedResistances st) = false ->
  (3 <= countReversals pd (drops pd) "resistance" i)%nat ->
  resistanceStep pd i st
  = {| rawSupports := rawSupports st;
       rawResistances := rawResistances st ++ [resistance_at pd i];
       checkedSupports := checkedSupports st;
       checkedResistances := checkedResistances st ++ [lp_at pd i] |}.
Proof.
  intros H C. unfold resistanceStep. rewrite H. cbn [negb].
  destruct (Nat.leb_spec 3 (countReversals pd (drops pd) "resistance" i));
    [|lia].
  rewrite set_add_fresh; [reflexivity | | assumption].
  apply (countReversals_base_nonzero pd (drops pd) "resistance"). lia.
Qed.

Lemma spaced_snoc bs i :
  spaced pd bs ->
  existsb (closeTo (lp_at pd i)) (map (lp_at pd) bs) = false ->
  spaced pd (bs ++ [i]).
Proof.
  intros S H. apply ForallOrdPairs_snoc; [exact S|].
  apply existsb_false in H. rewrite Forall_map in H. exact H.
Qed.

Lemma step_inv st sb rb i :
  scan_inv pd mv st sb rb ->
  exists sb' rb', scan_inv pd mv (step pd mv st i) sb' rb'.
Proof.
  intros [(S1 & S2 & S3 & S4) (R1 & R2 & R3 & R4)].
  unfold step.
  destruct (JS.ltb (lp_at pd i) mv) eqn:B.
  { exists sb, rb. repeat split; assumption. }
  assert (HS : exists sb',
    let st1 := supportStep pd i st in
    (rawSupports st1 = map (support_at pd) sb'
     /\ checkedSupports st1 = map (lp_at pd) sb'
     /\ Forall (accepted pd mv (countReversals pd (rises pd) "support")) sb'
     /\ spaced pd sb')
    /\ rawResistances st1 = rawResistances st
    /\ checkedResistances st1 = checkedResistances st).
  { destruct (existsb (closeTo (lp_at pd i)) (checkedSupports st)) eqn:E.
    { exists sb. rewrite supportStep_skip by assumption.
      repeat split; assumption. }
    destruct (Nat.leb_spec 3 (countReversals pd (rises pd) "support" i)).
    2:{ exists sb. rewrite supportStep_few by assumption.
        repeat split; assumption. }
    exists (sb ++ [i]). rewrite supportStep_emit by assumption.
    cbv zeta. cbn [rawSupports rawResistances checkedSupports checkedResistances].
    rewrite !map_app. cbn [map]. rewrite S1, S2.
    repeat split; auto.
    - apply Forall_app. split; auto. constructor; [|constructor].
      split; assumption.
    - apply spaced_snoc; auto. now rewrite <- S2. }
  destruct HS as (sb' & (S1' & S2' & S3' & S4') & K1 & K2).
  cbn zeta in *.
  set (st1 := supportStep pd i st) in *.
  destruct (existsb (closeTo (lp_at pd i)) (checkedResistances st1)) eqn:E.
  { exists sb', rb. rewrite resistanceStep_skip by assumption.
    unfold scan_inv. repeat split; auto; congruence. }
  destruct (Nat.leb_spec 3 (countReversals pd (drops pd) "resistance" i)).
  2:{ exists sb', rb. rewrite resistanceStep_few by assumption.
      unfold scan_inv. repeat split; auto; congruence. }
  exists sb', (rb ++ [i]). rewrite resistanceStep_emit by assumption.
  unfold scan_inv.
  cbn [rawSupports rawResistances checkedSupports checkedResistances].
  rewrite !map_app. cbn [map]. rewrite K1, K2, R1, R2.
  repeat split; auto.
  - apply Forall_app. split; auto. constructor; [|constructor].
    split; assumption.
  - apply spaced_snoc; auto. rewrite <- R2, <- K2. exact E.
Qed.

Lemma mainLoop_inv : exists sb rb, scan_inv pd mv (mainLoop pd mv) sb rb.
Proof.
  unfold mainLoop.
  assert (G : forall l st sb rb,
             scan_inv pd mv st sb rb ->
             exists sb' rb', scan_inv pd mv (fold_left (step pd mv) l st) sb' rb').
  { induction l as [|i l IH]; intros st sb rb H; cbn [fold_left].
    - eauto.
    - destruct (step_inv st sb rb i H) as (sb' & rb' & H').
      eapply IH; eauto. }
  apply (G _ emptyScan [] []).
  repeat split; try reflexivity; constructor.
Qed.

End StepFacts.

(* ------------------------------------------------------------------ *)
(** ** Sorting and objects *)

Section SortFacts.
Context {A : Type} (key : A -> string).

Lemma insert_sorted_perm x l : Permutation (x :: l) (insert_sorted key x l).
Proof.
  induction l as [|y l IH]; cbn [insert_sorted].
  - reflexivity.
  - destruct (cmp_gt (key y) (key x)).
    + reflexivity.
    + rewrite perm_swap. now apply perm_skip.
Qed.

Lemma js_sort_snoc l x :
  js_sort key (l ++ [x]) = insert_sorted key x (js_sort key l).
Proof. unfold js_sort. now rewrite fold_left_app. Qed.

Lemma js_sort_perm l : Permutation l (js_sort key l).
Proof.
  induction l as [|x l IH] using rev_ind.
  - reflexivity.
  - rewrite js_sort_snoc, <- insert_sorted_perm.
    rewrite <- IH. apply Permutation_sym, Permutation_cons_append.
Qed.

Lemma js_sort_in l x : In x (js_sort key l) <-> In x l.
Proof.
  split; apply Permutation_in;
    [apply Permutation_sym|]; apply js_sort_perm.
Qed.




End SortFacts.

(** *** Zone texts of non-negative prices *)



(** *** Objects *)

Section ObjFacts.
Context {V : Type}.
Implicit Types (m : obj V) (k : string) (v : V).

Lemma obj_get_absent m k : ~ In k (keys m) -> obj_get m k = None.
Proof.
  induction m as [|[k' v'] m IH]; cbn; intro H; auto.
  destruct (String.eqb_spec k' k).
  - exfalso. apply H. now left.
  - apply IH. intro. apply H. now right.
Qed.

Lemma obj_get_present m k v : obj_get m k = Some v -> In k (keys m).
Proof.
  induction m as [|[k' v'] m IH]; cbn; intro H; [discriminate|].
  destruct (String.eqb_spec k' k); [now left | right; auto].
Qed.

Lemma obj_set_absent m k v : ~ In k (keys m) -> obj_set m k v = m ++ [(k, v)].
Proof.
  induction m as [|[k' v'] m IH]; cbn; intro H; auto.
  destruct (String.eqb_spec k' k).
  - exfalso. apply H. now left.
  - f_equal. apply IH. intro. apply H. now right.
Qed.

Lemma obj_get_last m k v : ~ In k (keys m) -> obj_get (m ++ [(k, v)]) k = Some v.
Proof.
  induction m as [|[k' v'] m IH]; cbn; intro H.
  - now rewrite String.eqb_refl.
  - destruct (String.eqb_spec k' k).
    + exfalso. apply H. now left.
    + apply IH. intro. apply H. now right.
Qed.

Lemma obj_set_last m k v v' :
  ~ In k (keys m) -> obj_set (m ++ [(k, v)]) k v' = m ++ [(k, v')].
Proof.
  induction m as [|[k' w] m IH]; cbn; intro H.
  - now rewrite String.eqb_refl.
  - destruct (String.eqb_spec k' k).
    + exfalso. apply H. now left.
    + f_equal. apply IH. intro. apply H. now right.
Qed.

Lemma obj_get_set m k v k' :
  obj_get (obj_set m k v) k' = if String.eqb k k' then Some v else obj_get m k'.
Proof.
  induction m as [|[k0 v0] m IH]; cbn.
  - reflexivity.
  - destruct (String.eqb_spec k0 k) as [->|N]; cbn.
    + destruct (String.eqb_spec k k'); reflexivity.
    + rewrite IH. destruct (String.eqb_spec k0 k') as [->|N'].
      * destruct (String.eqb_spec k k'); [congruence | reflexivity].
      * reflexivity.
Qed.

Lemma keys_set m k v :
  keys (obj_set m k v) = if existsb (String.eqb k) (keys m)
                         then keys m else keys m ++ [k].
Proof.
  unfold keys. induction m as [|[k0 v0] m IH]; cbn.
  - reflexivity.
  - rewrite (String.eqb_sym k k0).
    destruct (String.eqb_spec k0 k) as [->|N]; cbn.
    + reflexivity.
    + rewrite IH.
      destruct (existsb (String.eqb k) (map fst m)); reflexivity.
Qed.

Lemma keys_set_nodup m k v : NoDup (keys m) -> NoDup (keys (obj_set m k v)).
Proof.
  intro N. rewrite keys_set.
  destruct (existsb (String.eqb k) (keys m)) eqn:E; [assumption|].
  apply NoDup_app; [assumption | repeat constructor; auto |].
  intros x Hx [Ek | []].
  apply existsb_false in E. rewrite Forall_forall in E.
  specialize (E x Hx). rewrite Ek, String.eqb_refl in E. discriminate.
Qed.

Lemma keys_set_in m k v x : In x (keys (obj_set m k v)) <-> x = k \/ In x (keys m).
Proof.
  rewrite keys_set.
  destruct (existsb (String.eqb k) (keys m)) eqn:E.
  - split; [now right|]. intros [->|H]; [|exact H].
    apply existsb_exists in E as (y & Hy & Ey).
    apply String.eqb_eq in Ey. now subst.
  - rewrite in_app_iff. cbn. intuition.
Qed.

Lemma obj_values_get m v :
  NoDup (keys m) ->
  (In v (obj_values m) <-> exists k, obj_get m k = Some v).
Proof.
  induction m as [|[k0 v0] m IH]; cbn.
  - intros _. split; [contradiction | intros [? ?]; discriminate].
  - intro N. inversion N as [|? ? Hn N']; subst. split.
    + intros [<- | H].
      * exists k0. now rewrite String.eqb_refl.
      * apply (IH N') in H as [k Hk]. exists k.
        destruct (String.eqb_spec k0 k) as [->|]; [|exact Hk].
        exfalso. apply Hn. eapply obj_get_present; eauto.
    + intros [k Hk].
      destruct (String.eqb_spec k0 k) as [->|].
      * left. congruence.
      * right. apply (IH N'). eauto.
Qed.

End ObjFacts.

(* ------------------------------------------------------------------ *)
(** ** Aggregation and highlighted zones *)

Lemma list_sum_snoc l n : list_sum (l ++ [n]) = (list_sum l + n)%nat.
Proof. rewrite list_sum_app. simpl. lia. Qed.

Lemma obj_get_in {V} (m : obj V) k v :
  NoDup (keys m) -> In (k, v) m -> obj_get m k = Some v.
Proof.
  induction m as [|[k0 v0] m IH]; cbn; intros N H; [contradiction|].
  inversion N as [|? ? Hn N']; subst.
  destruct H as [E | H].
  - injection E as -> ->. now rewrite String.eqb_refl.
  - destruct (String.eqb_spec k0 k) as [->|].
    + exfalso. apply Hn. apply (in_map fst) in H. exact H.
    + auto.
Qed.

(** *** Aggregation of supports *)

Lemma aggregateSupports_snoc l s :
  aggregateSupports (l ++ [s])
  = let m := aggregateSupports l in
    match obj_get m (s_zone s) with
    | None => obj_set m (s_zone s) s
    | Some a =>
        obj_set m (s_zone s)
          {| s_zone := s_zone a;
             bounceCount := bounceCount a + bounceCount s;
             confirmedResistance :=
               confirmedResistance a || confirmedResistance s |}
    end.
Proof. unfold aggregateSupports. now rewrite fold_left_app. Qed.

Lemma aggregateSupports_spec l :
  NoDup (keys (aggregateSupports l))
  /\ forall z, obj_get (aggregateSupports l) z = spec_mergedSupport l z.
Proof.
  induction l as [|s l [N G]] using rev_ind.
  - split; [constructor | reflexivity].
  - rewrite aggregateSupports_snoc. cbv zeta. split.
    + destruct (obj_get _ _); now apply keys_set_nodup.
    + intro z.
      assert (E : obj_get
                    match obj_get (aggregateSupports l) (s_zone s) with
                    | None => obj_set (aggregateSupports l) (s_zone s) s
                    | Some a =>
                        obj_set (aggregateSupports l) (s_zone s)
                          {| s_zone := s_zone a;
                             bounceCount := bounceCount a + bounceCount s;
                             confirmedResistance :=
                               confirmedResistance a || confirmedResistance s |}
                    end z
                  = if String.eqb (s_zone s) z
                    then match obj_get (aggregateSupports l) (s_zone s) with
                         | None => Some s
                         | Some a =>
                             Some {| s_zone := s_zone a;
                                     bounceCount := bounceCount a + bounceCount s;
                                     confirmedResistance :=
                                       confirmedResistance a
                                       || confirmedResistance s |}
                         end
                    else obj_get (aggregateSupports l) z).
      { destruct (obj_get (aggregateSupports l) (s_zone s));
          now rewrite obj_get_set. }
      rewrite E. clear E.
      unfold spec_mergedSupport, supportGroup. rewrite filter_app. cbn [filter].
      destruct (String.eqb_spec (s_zone s) z) as [<-|Hz].
      * rewrite G. unfold spec_mergedSupport, supportGroup.
        destruct (filter _ l) as [|g0 g] eqn:Eg.
        -- cbn. destruct s; cbn. now rewrite Nat.add_0_r, orb_false_r.
        -- rewrite <- app_comm_cons, app_comm_cons.
           rewrite map_app, existsb_app.
           change (map bounceCount [s]) with [bounceCount s].
           change (existsb confirmedResistance [s])
             with (confirmedResistance s || false).
           rewrite list_sum_snoc, orb_false_r. reflexivity.
      * rewrite app_nil_r. apply G.
Qed.

Lemma aggregateSupports_zone l k v :
  In (k, v) (aggregateSupports l) -> s_zone v = k.
Proof.
  destruct (aggregateSupports_spec l) as [N G]. intro H.
  apply (obj_get_in _ _ _ N) in H. rewrite G in H.
  unfold spec_mergedSupport in H.
  destruct (supportGroup l k); [discriminate|]. now injection H as <-.
Qed.

Lemma aggregateSupports_keys l :
  map s_zone (obj_values (aggregateSupports l)) = keys (aggregateSupports l).
Proof.
  pose proof (aggregateSupports_zone l) as H.
  unfold obj_values, keys. rewrite map_map.
  induction (aggregateSupports l) as [|[k v] m IH]; cbn; auto.
  f_equal.
  - apply H. now left.
  - apply IH. intros. apply H. now right.
Qed.


(** *** Aggregation of resistances *)

Lemma aggregateResistances_snoc l r :
  aggregateResistances (l ++ [r])
  = let m := aggregateResistances l in
    match obj_get m (r_zone r) with
    | None => obj_set m (r_zone r) r
    | Some a =>
        obj_set m (r_zone r)
          {| r_zone := r_zone a; dropCount := dropCount a + dropCount r |}
    end.
Proof. unfold aggregateResistances. now rewrite fold_left_app. Qed.

Lemma aggregateResistances_spec l :
  NoDup (keys (aggregateResistances l))
  /\ forall z, obj_get (aggregateResistances l) z = spec_mergedResistance l z.
Proof.
  induction l as [|r l [N G]] using rev_ind.
  - split; [constructor | reflexivity].
  - rewrite aggregateResistances_snoc. cbv zeta. split.
    + destruct (obj_get _ _); now apply keys_set_nodup.
    + intro z.
      assert (E : obj_get
                    match obj_get (aggregateResistances l) (r_zone r) with
                    | None => obj_set (aggregateResistances l) (r_zone r) r
                    | Some a =>
                        obj_set (aggregateResistances l) (r_zone r)
                          {| r_zone := r_zone a;
                             dropCount := dropCount a + dropCount r |}
                    end z
                  = if String.eqb (r_zone r) z
                    then match obj_get (aggregateResistances l) (r_zone r) with
                         | None => Some r
                         | Some a =>
                             Some {| r_zone := r_zone a;
                                     dropCount := dropCount a + dropCount r |}
                         end
                    else obj_get (aggregateResistances l) z).
      { destruct (obj_get (aggregateResistances l) (r_zone r));
          now rewrite obj_get_set. }
      rewrite E. clear E.
      unfold spec_mergedResistance, resistanceGroup.
      rewrite filter_app. cbn [filter].
      destruct (String.eqb_spec (r_zone r) z) as [<-|Hz].
      * rewrite G. unfold spec_mergedResistance, resistanceGroup.
        destruct (filter _ l) as [|g0 g] eqn:Eg.
        -- cbn. destruct r; cbn. now rewrite Nat.add_0_r.
        -- rewrite <- app_comm_cons, app_comm_cons.
           rewrite map_app.
           change (map dropCount [r]) with [dropCount r].
           rewrite list_sum_snoc. reflexivity.
      * rewrite app_nil_r. apply G.
Qed.

Lemma aggregateResistances_zone l k v :
  In (k, v) (aggregateResistances l) -> r_zone v = k.
Proof.
  destruct (aggregateResistances_spec l) as [N G]. intro H.
  apply (obj_get_in _ _ _ N) in H. rewrite G in H.
  unfold spec_mergedResistance in H.
  destruct (resistanceGroup l k); [discriminate|]. now injection H as <-.
Qed.

Lemma aggregateResistances_keys l :
  map r_zone (obj_values (aggregateResistances l))
  = keys (aggregateResistances l).
Proof.
  pose proof (aggregateResistances_zone l) as H.
  unfold obj_values, keys. rewrite map_map.
  induction (aggregateResistances l) as [|[k v] m IH]; cbn; auto.
  f_equal.
  - apply H. now left.
  - apply IH. intros. apply H. now right.
Qed.


(** *** Highlighted zones *)

Lemma list_sum_cons x l : list_sum (x :: l) = (x + list_sum l)%nat.
Proof. reflexivity. Qed.

Lemma or0_id n : JS.or0 n = n.
Proof. now destruct n. Qed.

Lemma highlightPair_miss m s r :
  overlaps s r = false -> highlightPair m s r = m.
Proof. intro H. unfold highlightPair. now rewrite H. Qed.

Lemma highlightPair_present m s r h :
  ~ In (s_zone s) (keys m) -> overlaps s r = true ->
  highlightPair (m ++ [(s_zone s, h)]) s r
  = m ++ [(s_zone s,
           {| h_zone := h_zone h;
              supportBounceCount := supportBounceCount h + bounceCount s;
              resistanceDropCount := resistanceDropCount h + dropCount r;
              h_type := h_type h |})].
Proof.
  intros K H. unfold highlightPair. rewrite H.
  rewrite (obj_get_last _ _ _ K), (obj_get_last _ _ _ K).
  rewrite (obj_set_last _ _ _ _ K), or0_id. reflexivity.
Qed.

Lemma highlightPair_absent m s r :
  ~ In (s_zone s) (keys m) -> overlaps s r = true ->
  highlightPair m s r
  = m ++ [(s_zone s,
           {| h_zone := s_zone s;
              supportBounceCount := bounceCount s;
              resistanceDropCount := dropCount r;
              h_type := overlapType |})].
Proof.
  intros K H. unfold highlightPair. rewrite H.
  rewrite (obj_get_absent _ _ K), (obj_set_absent _ _ _ K).
  rewrite (obj_get_last _ _ _ K), (obj_set_last _ _ _ _ K), or0_id.
  reflexivity.
Qed.

Lemma inner_present s rs : forall m h,
  ~ In (s_zone s) (keys m) ->
  fold_left (fun m' r => highlightPair m' s r) rs (m ++ [(s_zone s, h)])
  = m ++ [(s_zone s,
           {| h_zone := h_zone h;
              supportBounceCount :=
                supportBounceCount h
                + list_sum (map (fun _ => bounceCount s)
                                (filter (overlaps s) rs));
              resistanceDropCount :=
                resistanceDropCount h
                + list_sum (map dropCount (filter (overlaps s) rs));
              h_type := h_type h |})].
Proof.
  induction rs as [|r rs IH]; intros m h K; cbn [fold_left filter].
  - cbn. rewrite !Nat.add_0_r. now destruct h.
  - destruct (overlaps s r) eqn:E.
    + rewrite (highlightPair_present _ _ _ _ K E), (IH _ _ K).
      cbn [map list_sum h_zone supportBounceCount resistanceDropCount h_type].
      rewrite !list_sum_cons. do 3 f_equal. f_equal; lia.
    + rewrite (highlightPair_miss _ _ _ E). now apply IH.
Qed.

Lemma inner_absent s rs : forall m,
  ~ In (s_zone s) (keys m) ->
  fold_left (fun m' r => highlightPair m' s r) rs m
  = if existsb (overlaps s) rs
    then m ++ [(s_zone s, spec_overlapRecord rs s)]
    else m.
Proof.
  induction rs as [|r rs IH]; intros m K; cbn [fold_left existsb].
  - reflexivity.
  - unfold spec_overlapRecord. cbn [filter].
    destruct (overlaps s r) eqn:E; cbn [orb].
    + rewrite (highlightPair_absent _ _ _ K E), (inner_present _ _ _ _ K).
      reflexivity.
    + rewrite (highlightPair_miss _ _ _ E). now apply IH.
Qed.

Lemma tempHighlights_from rs ss : forall m,
  NoDup (map s_zone ss) ->
  (forall s, In s ss -> ~ In (s_zone s) (keys m)) ->
  fold_left (fun m s => fold_left (fun m' r => highlightPair m' s r) rs m) ss m
  = m ++ map (fun s => (s_zone s, spec_overlapRecord rs s))
             (filter (fun s => existsb (overlaps s) rs) ss).
Proof.
  induction ss as [|s ss IH]; intros m N K; cbn [fold_left filter map].
  - now rewrite app_nil_r.
  - inversion N as [|? ? Hs N']; subst.
    rewrite inner_absent by (apply K; now left).
    destruct (existsb (overlaps s) rs).
    + rewrite IH; auto.
      * cbn [map]. now rewrite <- app_assoc.
      * intros s' Hs' Hin. unfold keys in Hin.
        rewrite map_app, in_app_iff in Hin. cbn in Hin.
        destruct Hin as [Hin | [Hin | []]].
        -- apply (K s'); [now right | exact Hin].
        -- apply Hs. rewrite Hin. now apply in_map.
    + apply IH; auto. intros s' Hs'. apply K. now right.
Qed.

Lemma tempHighlights_spec ss rs :
  NoDup (map s_zone ss) ->
  obj_values (tempHighlights ss rs) = spec_overlapRecords ss rs.
Proof.
  intro N. unfold tempHighlights.
  rewrite tempHighlights_from; [| assumption | intros ? ? []].
  unfold obj_values, spec_overlapRecords. rewrite app_nil_l, map_map.
  reflexivity.
Qed.

Lemma le_div_pos a b c :
  0 < b -> (JS.le (JS.div a b) c = true <-> a <= c * b).
Proof.
  intro Hb. rewrite div_nonzero by lra. cbn [JS.le].
  rewrite Qle_bool_iff. split; intro H.
  - apply (Qmult_le_r _ _ b Hb) in H.
    setoid_replace (a / b * b) with a in H by (field; lra). exact H.
  - apply (Qmult_le_r _ _ b Hb).
    setoid_replace (a / b * b) with a by (field; lra). exact H.
Qed.

(** *** Where the emitted zones come from *)


Lemma accepted_in_range pd mv reversal type i :
  accepted pd mv (countReversals pd reversal type) i ->
  (i + 4 < List.length pd)%nat.
Proof.
  intros [_ H]. pose proof (countReversals_room pd reversal type i). lia.
Qed.

Lemma raw_support_origin pd mv s :
  In s (rawSupports (mainLoop pd mv)) ->
  exists i, s = support_at pd i
            /\ accepted pd mv (countReversals pd (rises pd) "support") i.
Proof.
  destruct (mainLoop_inv pd mv) as (sb & rb & (S1 & _ & S3 & _) & _).
  rewrite S1. intro H. apply in_map_iff in H as (i & <- & Hi).
  exists i. split; [reflexivity|].
  rewrite Forall_forall in S3. now apply S3.
Qed.

Lemma raw_resistance_origin pd mv r :
  In r (rawResistances (mainLoop pd mv)) ->
  exists i, r = resistance_at pd i
            /\ accepted pd mv (countReversals pd (drops pd) "resistance") i.
Proof.
  destruct (mainLoop_inv pd mv) as (sb & rb & _ & (R1 & _ & R3 & _)).
  rewrite R1. intro H. apply in_map_iff in H as (i & <- & Hi).
  exists i. split; [reflexivity|].
  rewrite Forall_forall in R3. now apply R3.
Qed.

Lemma merged_support_member l z a :
  spec_mergedSupport l z = Some a ->
  s_zone a = z /\ exists s, In s l /\ s_zone s = z.
Proof.
  unfold spec_mergedSupport. intro H.
  destruct (supportGroup l z) as [|s g] eqn:E; [discriminate|].
  injection H as <-. split; [reflexivity|].
  assert (Hs : In s (supportGroup l z)) by (rewrite E; now left).
  apply filter_In in Hs as [Hs Hz]. apply String.eqb_eq in Hz. eauto.
Qed.

Lemma merged_resistance_member l z a :
  spec_mergedResistance l z = Some a ->
  r_zone a = z /\ exists r, In r l /\ r_zone r = z.
Proof.
  unfold spec_mergedResistance. intro H.
  destruct (resistanceGroup l z) as [|r g] eqn:E; [discriminate|].
  injection H as <-. split; [reflexivity|].
  assert (Hr : In r (resistanceGroup l z)) by (rewrite E; now left).
  apply filter_In in Hr as [Hr Hz]. apply String.eqb_eq in Hz. eauto.
Qed.

Lemma aggregated_supports_in l a :
  In a (js_sort s_zone (obj_values (aggregateSupports l)))
  <-> exists z, spec_mergedSupport l z = Some a.
Proof.
  destruct (aggregateSupports_spec l) as [N G].
  rewrite js_sort_in, (obj_values_get _ _ N).
  split; intros [z Hz]; exists z; [rewrite <- G | rewrite G]; exact Hz.
Qed.

Lemma aggregated_resistances_in l a :
  In a (js_sort r_zone (obj_values (aggregateResistances l)))
  <-> exists z, spec_mergedResistance l z = Some a.
Proof.
  destruct (aggregateResistances_spec l) as [N G].
  rewrite js_sort_in, (obj_values_get _ _ N).
  split; intros [z Hz]; exists z; [rewrite <- G | rewrite G]; exact Hz.
Qed.

Lemma aggregated_supports_nodup l :
  NoDup (map s_zone (js_sort s_zone (obj_values (aggregateSupports l)))).
Proof.
  destruct (aggregateSupports_spec l) as [N _].
  apply (Permutation_NoDup
           (l := map s_zone (obj_values (aggregateSupports l)))).
  - apply Permutation_map, js_sort_perm.
  - now rewrite aggregateSupports_keys.
Qed.


Lemma findSupportLevels_some pd latest out :
  latestPrice pd = Some latest -> findSupportLevels pd = Some out ->
  let st := mainLoop pd (latest * (1 # 2)) in
  supportZones out
  = js_sort s_zone (obj_values (aggregateSupports (rawSupports st)))
  /\ resistanceZones out
     = js_sort r_zone (obj_values (aggregateResistances (rawResistances st)))
  /\ highlightedZones out
     = js_sort h_zone
         (obj_values (tempHighlights (supportZones out) (resistanceZones out))).
Proof.
  intros L F. unfold findSupportLevels in F. rewrite L in F.
  injection F as <-. cbn. repeat split.
Qed.

Lemma findSupportLevels_latest pd out :
  findSupportLevels pd = Some out -> exists latest, latestPrice pd = Some latest.
Proof.
  unfold findSupportLevels. destruct (latestPrice pd); [eauto | discriminate].
Qed.

(** The detector returns a result on every non-empty series. *)
Lemma findSupportLevels_total pd :
  pd <> [] -> exists out, findSupportLevels pd = Some out.
Proof.
  intro H. unfold findSupportLevels, latestPrice.
  destruct (nth_error pd (List.length pd - 1)) as [o|] eqn:E.
  - eauto.
  - apply nth_error_None in E. destruct pd; [congruence | cbn in E; lia].
Qed.

Lemma out_support_origin pd latest out a :
  latestPrice pd = Some latest -> findSupportLevels pd = Some out ->
  In a (supportZones out) ->
  exists i, s_zone a = toFixed2 (lp_at pd i)
            /\ accepted pd (latest * (1 # 2))
                        (countReversals pd (rises pd) "support") i.
Proof.
  intros L F H.
  destruct (findSupportLevels_some pd latest out L F) as (E & _ & _).
  rewrite E in H. apply aggregated_supports_in in H as [z Hz].
  apply merged_support_member in Hz as (Za & s & Hs & Zs).
  apply raw_support_origin in Hs as (i & -> & Hi).
  exists i. split; [|exact Hi]. rewrite Za, <- Zs. reflexivity.
Qed.

Lemma out_resistance_origin pd latest out a :
  latestPrice pd = Some latest -> findSupportLevels pd = Some out ->
  In a (resistanceZones out) ->
  exists i, r_zone a = toFixed2 (lp_at pd i)
            /\ accepted pd (latest * (1 # 2))
                        (countReversals pd (drops pd) "resistance") i.
Proof.
  intros L F H.
  destruct (findSupportLevels_some pd latest out L F) as (_ & E & _).
  rewrite E in H. apply aggregated_resistances_in in H as [z Hz].
  apply merged_resistance_member in Hz as (Za & r & Hr & Zr).
  apply raw_resistance_origin in Hr as (i & -> & Hi).
  exists i. split; [|exact Hi]. rewrite Za, <- Zr. reflexivity.
Qed.

(** *** Zone texts of spaced bases are distinct *)



(* ------------------------------------------------------------------ *)
(** ** The contracts *)

Lemma filter_seq_upto (c : nat) (q : nat -> bool) n :
  filter (fun j => (j <? c)%nat && q j) (seq 0 n) = filter q (seq 0 (Nat.min c n)).
Proof.
  induction n as [|n IH].
  - now rewrite Nat.min_0_r.
  - rewrite seq_S, filter_app, IH. cbn [filter Nat.add].
    destruct (Nat.ltb_spec n c) as [L|L]; cbn [andb].
    + replace (Nat.min c (S n)) with (S (Nat.min c n)) by lia.
      rewrite seq_S, filter_app. cbn [filter Nat.add].
      now replace (Nat.min c n) with n by lia.
    + rewrite app_nil_r. f_equal. f_equal. lia.
Qed.

Lemma trendCount_room pd b range type :
  (trendCount pd b range type <= List.length pd - (b + 1))%nat.
Proof.
  unfold trendCount. rewrite fold_count, Nat.add_0_l.
  etransitivity; [apply filter_length_le|].
  unfold JS.range. rewrite length_seq. lia.
Qed.

(** C3, as stated, fails: with exactly three observations after the base
    (fewer than four) the validator can return true. *)
Lemma trend_three_after_counterexample :
  let pd := prices [100 # 1; 99 # 1; 98 # 1; 97 # 1] in
  (List.length pd - (0 + 1) < 4)%nat
  /\ trendLineMatch pd 0 10 "support" = true.
Proof. split; [vm_compute; lia | vm_compute; reflexivity]. Qed.

(** C3, amended.  With fewer than three observations after the base index
    the validator returns false, for every range and direction. *)
Theorem trend_fewer_than_three :
  forall pd baseIndex range type,
    (List.length pd - (baseIndex + 1) < 3)%nat ->
    trendLineMatch pd baseIndex range type = false.
Proof.
  intros pd b range type H. unfold trendLineMatch.
  apply Nat.leb_gt.
  pose proof (trendCount_room pd b range type). lia.
Qed.

Lemma trend_fewer_than_three_witness :
  let pd := prices [100 # 1; 99 # 1; 98 # 1] in
  (List.length pd - (0 + 1) < 3)%nat
  /\ trendLineMatch pd 0 10 "support" = false.
Proof.
  split; [vm_compute; lia |].
  apply (trend_fewer_than_three (prices [100 # 1; 99 # 1; 98 # 1]) 0 10
                                "support").
  vm_compute; lia.
Defined.

(** *** What one iteration of the main loop leaves alone *)


Lemma step_few pd mv st i :
  (countReversals pd (rises pd) "support" i < 3)%nat ->
  (countReversals pd (drops pd) "resistance" i < 3)%nat ->
  step pd mv st i = st.
Proof.
  intros S R. unfold step. destruct (JS.ltb _ _); [reflexivity|].
  now rewrite supportStep_few, resistanceStep_few.
Qed.

(** C9.  A base among the last four observations emits nothing: the
    iteration of the main loop at an index [i >= n - 4] leaves the zone
    lists and the dedup sets as they were, and every zone of the result
    comes from a base index with at least four observations after it. *)
Theorem end_of_series_truncation :
  forall pd latest out,
    latestPrice pd = Some latest ->
    findSupportLevels pd = Some out ->
    (forall st i, (List.length pd - 4 <= i)%nat ->
                  step pd (latest * (1 # 2)) st i = st)
    /\ (forall s, In s (supportZones out) ->
          exists i, (i < List.length pd - 4)%nat
                    /\ s_zone s = toFixed2 (lp_at pd i))
    /\ (forall r, In r (resistanceZones out) ->
          exists i, (i < List.length pd - 4)%nat
                    /\ r_zone r = toFixed2 (lp_at pd i)).
Proof.
  intros pd latest out L F. repeat split.
  - intros st i H. apply step_few.
    + pose proof (countReversals_room pd (rises pd) "support" i). lia.
    + pose proof (countReversals_room pd (drops pd) "resistance" i). lia.
  - intros s Hs.
    destruct (out_support_origin pd latest out s L F Hs) as (i & Z & A).
    exists i. split; [|exact Z]. apply accepted_in_range in A. lia.
  - intros r Hr.
    destruct (out_resistance_origin pd latest out r L F Hr) as (i & Z & A).
    exists i. split; [|exact Z]. apply accepted_in_range in A. lia.
Qed.

Lemma end_of_series_truncation_witness :
  latestPrice sample = Some (90 # 1)
  /\ (exists out, findSupportLevels sample = Some out)
  /\ (List.length sample - 4 <= 6)%nat
  /\ step sample ((90 # 1) * (1 # 2)) emptyScan 6 = emptyScan.
Proof.
  split; [reflexivity|].
  split; [eexists; vm_compute; reflexivity|].
  split; [vm_compute; lia|].
  destruct (findSupportLevels sample) as [out|] eqn:F;
    [|vm_compute in F; discriminate].
  apply (proj1 (end_of_series_truncation sample (90 # 1) out eq_refl F)).
  vm_compute; lia.
Defined.



Lemma resistanceStep_supports pd i st :
  rawSupports (resistanceStep pd i st) = rawSupports st
  /\ checkedSupports (resistanceStep pd i st) = checkedSupports st.
Proof.
  unfold resistanceStep.
  destruct (negb _); [|now split].
  destruct (3 <=? _)%nat; now split.
Qed.


Lemma NoDup_map_filter {A B} (f : A -> B) (p : A -> bool) l :
  NoDup (map f l) -> NoDup (map f (filter p l)).
Proof.
  induction l as [|x l IH]; cbn; intro N; [constructor|].
  inversion N as [|? ? Hx N']; subst.
  destruct (p x); cbn; auto.
  constructor; auto.
  intro H. apply Hx. apply in_map_iff in H as (y & E & Hy).
  apply filter_In in Hy as [Hy _]. rewrite <- E. now apply in_map.
Qed.


(** Two raw supports with the text "0.01" are merged into one record. *)
Example pennies_merged :
  map s_zone (rawSupports (mainLoop pennies ((140 # 10000) * (1 # 2))))
  = ["0.01"; "0.01"]
  /\ option_map supportZones (findSupportLevels pennies)
     = Some [ {| s_zone := "0.01"; bounceCount := 6;
                 confirmedResistance := false |} ].
Proof. split; vm_compute; reflexivity. Qed.





(** *** Readings of the tests for a positive denominator *)


Lemma ge_div_pos a b c :
  0 < b -> (JS.ge (JS.div a b) c = true <-> c * b <= a).
Proof.
  intro Hb. rewrite div_nonzero by lra. cbn [JS.ge].
  rewrite Qle_bool_iff. split; intro H.
  - apply (Qmult_le_r _ _ b Hb) in H.
    setoid_replace (a / b * b) with a in H by (field; lra). exact H.
  - apply (Qmult_le_r _ _ b Hb).
    setoid_replace (a / b * b) with a by (field; lra). exact H.
Qed.

Lemma near_pos pd base j :
  0 < base ->
  (near pd base j = true <-> Qabs (lp_at pd j - base) <= (1 # 20) * base).
Proof. intro H. unfold near. now apply le_div_pos. Qed.


Lemma rises_pos pd j k :
  0 < lp_at pd j ->
  (rises pd j k = true <-> (11 # 10) * lp_at pd j <= lp_at pd k).
Proof.
  intro H. unfold rises. rewrite ge_div_pos by assumption.
  split; intro; lra.
Qed.

Lemma drops_pos pd j k :
  0 < lp_at pd j ->
  (drops pd j k = true <-> lp_at pd k <= (9 # 10) * lp_at pd j).
Proof.
  intro H. unfold drops. rewrite ge_div_pos by assumption.
  split; intro; lra.
Qed.

(** *** Remarks *)

(** With negative prices the texts "-0.00" and "0.00" are two zones of the
    same numeric value: the non-negativity of the prices is needed for the
    strict order of the aggregated collections. *)
Example below_zero_tie :
  option_map (fun out => map s_zone (supportZones out))
             (findSupportLevels below_zero)
  = Some ["-0.00"; "0.00"]
  /\ cmp_gt "0.00" "-0.00" = false /\ cmp_gt "-0.00" "0.00" = false.
Proof. repeat split; vm_compute; reflexivity. Qed.

(** An empty series makes the read of the last price fail. *)
Example empty_series : findSupportLevels [] = None.
Proof. reflexivity. Qed.

(** Twenty identical prices give no zone. *)
Example flat_series :
  findSupportLevels (prices (repeat (100 # 1) 20))
  = Some {| supportZones := []; resistanceZones := [];
            highlightedZones := [] |}.
Proof. vm_compute; reflexivity. Qed.

(** The sample series: one support, one resistance, one overlap. *)
Example sample_zones :
  findSupportLevels sample
  = Some {| supportZones :=
              [ {| s_zone := "100.00"; bounceCount := 3;
                   confirmedResistance := false |} ];
            resistanceZones := [ {| r_zone := "104.00"; dropCount := 3 |} ];
            highlightedZones :=
              [ {| h_zone := "100.00"; supportBounceCount := 3;
                   resistanceDropCount := 3;
                   h_type := "support-resistance overlap" |} ] |}.
Proof. vm_compute; reflexivity. Qed.

(* ------------------------------------------------------------------ *)
(** ** Further properties of the detector *)

(** *** Empty and short series *)



Lemma fold_left_fixed {A B} (f : A -> B -> A) l a :
  (forall x, In x l -> f a x = a) -> fold_left f l a = a.
Proof.
  induction l as [|x l IH]; cbn; intro H; [reflexivity|].
  rewrite (H x (or_introl eq_refl)). apply IH. intros; apply H; now right.
Qed.

Lemma tempHighlights_no_resistance ss : tempHighlights ss [] = [].
Proof.
  unfold tempHighlights. apply fold_left_fixed. reflexivity.
Qed.

Lemma counts_zero_no_zones pd latest :
  latestPrice pd = Some latest ->
  (forall i, (countReversals pd (rises pd) "support" i < 3)%nat) ->
  (forall i, (countReversals pd (drops pd) "resistance" i < 3)%nat) ->
  findSupportLevels pd = Some noZones.
Proof.
  intros L S R. unfold findSupportLevels. rewrite L.
  assert (E : mainLoop pd (latest * (1 # 2)) = emptyScan).
  { unfold mainLoop. apply fold_left_fixed. intros i _. now apply step_few. }
  cbv zeta. rewrite E. reflexivity.
Qed.

(** X2.  A series of one to four observations yields no zone at all: three
    touches after a base and a later reversal need five observations. *)
Theorem short_series_no_zones :
  forall pd,
    pd <> [] -> (List.length pd <= 4)%nat ->
    findSupportLevels pd = Some noZones.
Proof.
  intros pd N H.
  destruct (findSupportLevels_total pd N) as [out F].
  destruct (findSupportLevels_latest pd out F) as [latest L].
  apply (counts_zero_no_zones pd latest L).
  - intro i. pose proof (countReversals_room pd (rises pd) "support" i). lia.
  - intro i. pose proof (countReversals_room pd (drops pd) "resistance" i).
    lia.
Qed.

Lemma short_series_no_zones_witness :
  let pd := prices [100 # 1; 99 # 1; 98 # 1; 110 # 1] in
  pd <> [] /\ (List.length pd <= 4)%nat
  /\ findSupportLevels pd = Some noZones.
Proof.
  intro pd.
  assert (N : pd <> []) by discriminate.
  assert (H : (List.length pd <= 4)%nat) by (vm_compute; lia).
  split; [exact N|]. split; [exact H|].
  exact (short_series_no_zones pd N H).
Defined.

(** *** The two detection paths *)

Lemma supportStep_resistances pd i st :
  rawResistances (supportStep pd i st) = rawResistances st
  /\ checkedResistances (supportStep pd i st) = checkedResistances st.
Proof.
  unfold supportStep.
  destruct (negb _); [|now split].
  destruct (3 <=? _)%nat; now split.
Qed.

(** X4.  The two paths are independent: the support path leaves the
    resistance list and its dedup set alone, the resistance path leaves the
    support list and its dedup set alone, and running them in either order,
    at any two indices, gives the same state. *)
Theorem detection_paths_independent :
  forall pd i j st,
    rawResistances (supportStep pd i st) = rawResistances st
    /\ checkedResistances (supportStep pd i st) = checkedResistances st
    /\ rawSupports (resistanceStep pd j st) = rawSupports st
    /\ checkedSupports (resistanceStep pd j st) = checkedSupports st
    /\ resistanceStep pd j (supportStep pd i st)
       = supportStep pd i (resistanceStep pd j st).
Proof.
  intros pd i j st.
  destruct (supportStep_resistances pd i st) as [A1 A2].
  destruct (resistanceStep_supports pd j st) as [B1 B2].
  repeat split; auto.
  unfold supportStep, resistanceStep.
  destruct (negb (existsb (closeTo (lp_at pd i)) (checkedSupports st)))
    eqn:G1;
    destruct (3 <=? countReversals pd (rises pd) "support" i)%nat eqn:C1;
    destruct (negb (existsb (closeTo (lp_at pd j)) (checkedResistances st)))
      eqn:G2;
    destruct (3 <=? countReversals pd (drops pd) "resistance" j)%nat eqn:C2;
    cbn [rawSupports rawResistances checkedSupports checkedResistances];
    rewrite ?G1, ?C1, ?G2, ?C2; reflexivity.
Qed.

(** *** Counts carried by the result *)

Lemma list_sum_map_ge {A} (f : A -> nat) (n : nat) l :
  l <> [] -> (forall x, In x l -> (n <= f x)%nat) ->
  (n <= list_sum (map f l))%nat.
Proof.
  destruct l as [|x l]; [congruence|]. intros _ H. cbn.
  specialize (H x (or_introl eq_refl)). lia.
Qed.

Lemma raw_support_count pd mv s :
  In s (rawSupports (mainLoop pd mv)) -> (3 <= bounceCount s)%nat.
Proof.
  intro H. apply raw_support_origin in H as (i & -> & _ & A). exact A.
Qed.

Lemma raw_resistance_count pd mv r :
  In r (rawResistances (mainLoop pd mv)) -> (3 <= dropCount r)%nat.
Proof.
  intro H. apply raw_resistance_origin in H as (i & -> & _ & A). exact A.
Qed.

Lemma merged_support_count l z a :
  (forall s, In s l -> (3 <= bounceCount s)%nat) ->
  spec_mergedSupport l z = Some a -> (3 <= bounceCount a)%nat.
Proof.
  intros H E. unfold spec_mergedSupport in E.
  destruct (supportGroup l z) as [|s g] eqn:G; [discriminate|].
  injection E as <-.
  assert (Hs : In s (supportGroup l z)) by (rewrite G; now left).
  apply filter_In in Hs as [Hs _]. specialize (H s Hs).
  cbn. lia.
Qed.

Lemma merged_resistance_count l z a :
  (forall r, In r l -> (3 <= dropCount r)%nat) ->
  spec_mergedResistance l z = Some a -> (3 <= dropCount a)%nat.
Proof.
  intros H E. unfold spec_mergedResistance in E.
  destruct (resistanceGroup l z) as [|r g] eqn:G; [discriminate|].
  injection E as <-.
  assert (Hr : In r (resistanceGroup l z)) by (rewrite G; now left).
  apply filter_In in Hr as [Hr _]. specialize (H r Hr).
  cbn. lia.
Qed.

Lemma highlighted_in pd out h :
  findSupportLevels pd = Some out ->
  (In h (highlightedZones out)
   <-> exists s, In s (supportZones out)
                 /\ existsb (overlaps s) (resistanceZones out) = true
                 /\ h = spec_overlapRecord (resistanceZones out) s).
Proof.
  intro F.
  destruct (findSupportLevels_latest pd out F) as [latest L].
  destruct (findSupportLevels_some pd latest out L F) as (ES & ER & EH).
  assert (NS : NoDup (map s_zone (supportZones out)))
    by (rewrite ES; apply aggregated_supports_nodup).
  rewrite (tempHighlights_spec _ _ NS) in EH.
  rewrite EH, js_sort_in. unfold spec_overlapRecords.
  rewrite in_map_iff. split.
  - intros (s & <- & Hs). apply filter_In in Hs as [Hs E]. eauto.
  - intros (s & Hs & E & ->). exists s. split; [reflexivity|].
    now apply filter_In.
Qed.

(** X5.  Every zone of the result carries a count of at least 3: the bounce
    count of a support, the drop count of a resistance, and both counts of
    an overlap record. *)
Theorem result_counts_at_least_three :
  forall pd out,
    findSupportLevels pd = Some out ->
    (forall s, In s (supportZones out) -> (3 <= bounceCount s)%nat)
    /\ (forall r, In r (resistanceZones out) -> (3 <= dropCount r)%nat)
    /\ (forall h, In h (highlightedZones out) ->
                  (3 <= supportBounceCount h)%nat
                  /\ (3 <= resistanceDropCount h)%nat).
Proof.
  intros pd out F.
  destruct (findSupportLevels_latest pd out F) as [latest L].
  destruct (findSupportLevels_some pd latest out L F) as (ES & ER & _).
  assert (CS : forall s, In s (supportZones out) -> (3 <= bounceCount s)%nat).
  { intros s Hs. rewrite ES in Hs.
    apply aggregated_supports_in in Hs as [z Hz].
    eapply merged_support_count; [|exact Hz].
    intros; eapply raw_support_count; eauto. }
  assert (CR : forall r, In r (resistanceZones out) -> (3 <= dropCount r)%nat).
  { intros r Hr. rewrite ER in Hr.
    apply aggregated_resistances_in in Hr as [z Hz].
    eapply merged_resistance_count; [|exact Hz].
    intros; eapply raw_resistance_count; eauto. }
  split; [exact CS|]. split; [exact CR|].
  intros h Hh. apply (highlighted_in pd out h F) in Hh as (s & Hs & E & ->).
  apply existsb_exists in E as (r & Hr & O).
  assert (M : In r (filter (overlaps s) (resistanceZones out)))
    by now apply filter_In.
  cbn [spec_overlapRecord supportBounceCount resistanceDropCount]. split.
  - apply list_sum_map_ge.
    + intro E. rewrite E in M. contradiction.
    + intros _ _. now apply CS.
  - apply list_sum_map_ge.
    + intro E. rewrite E in M. contradiction.
    + intros x Hx. apply CR. now apply filter_In in Hx as [Hx _].
Qed.

Lemma result_counts_at_least_three_witness :
  let h := {| h_zone := "100.00"; supportBounceCount := 3;
              resistanceDropCount := 3;
              h_type := "support-resistance overlap" |} in
  exists out,
    findSupportLevels sample = Some out
    /\ In h (highlightedZones out)
    /\ (3 <= supportBounceCount h)%nat /\ (3 <= resistanceDropCount h)%nat.
Proof.
  intro h.
  destruct (findSupportLevels sample) as [out|] eqn:F;
    [|vm_compute in F; discriminate].
  assert (Hh : In h (highlightedZones out)).
  { vm_compute in F. injection F as <-. now left. }
  exists out. split; [reflexivity|]. split; [exact Hh|].
  exact (proj2 (proj2 (result_counts_at_least_three sample out F)) h Hh).
Defined.

(** *** Aggregation keeps the totals *)

Lemma obj_set_sum {V} (f : V -> nat) (m : obj V) k v :
  (list_sum (map f (obj_values (obj_set m k v)))
   + match obj_get m k with Some a => f a | None => O end
   = list_sum (map f (obj_values m)) + f v)%nat.
Proof.
  unfold obj_values.
  induction m as [|[k0 v0] m IH]; cbn [obj_set obj_get].
  - cbn. lia.
  - destruct (String.eqb k0 k); cbn [map snd]; rewrite !list_sum_cons; lia.
Qed.

Lemma obj_set_any {V} (f : V -> bool) (m : obj V) k v a :
  obj_get m k = Some a -> f v = f a || f v ->
  existsb f (obj_values (obj_set m k v))
  = existsb f (obj_values m) || f v.
Proof.
  unfold obj_values. intros G E.
  induction m as [|[k0 v0] m IH]; cbn in *; [discriminate|].
  destruct (String.eqb k0 k); cbn.
  - injection G as ->. rewrite E.
    destruct (f a), (f v), (existsb f (map snd m)); reflexivity.
  - rewrite (IH G). now rewrite orb_assoc.
Qed.

Lemma obj_get_none_absent {V} (m : obj V) k :
  NoDup (keys m) -> obj_get m k = None -> ~ In k (keys m).
Proof.
  intros N G K. unfold keys in K.
  apply in_map_iff in K as ([k' v] & E & Hin). cbn in E. subst k'.
  rewrite (obj_get_in _ _ _ N Hin) in G. discriminate.
Qed.

Lemma list_sum_one n : list_sum [n] = n.
Proof. cbn. lia. Qed.

Lemma aggregateSupports_totals l :
  list_sum (map bounceCount (obj_values (aggregateSupports l)))
  = list_sum (map bounceCount l)
  /\ existsb confirmedResistance (obj_values (aggregateSupports l))
     = existsb confirmedResistance l.
Proof.
  induction l as [|s l [IH1 IH2]] using rev_ind.
  - split; reflexivity.
  - rewrite aggregateSupports_snoc. cbv zeta.
    rewrite map_app, existsb_app.
    change (map bounceCount [s]) with [bounceCount s].
    change (existsb confirmedResistance [s])
      with (confirmedResistance s || false).
    rewrite list_sum_snoc, orb_false_r.
    destruct (aggregateSupports_spec l) as [N _].
    destruct (obj_get (aggregateSupports l) (s_zone s)) as [a|] eqn:G.
    + split.
      * pose proof (obj_set_sum bounceCount (aggregateSupports l) (s_zone s)
                      {| s_zone := s_zone a;
                         bounceCount := bounceCount a + bounceCount s;
                         confirmedResistance :=
                           confirmedResistance a || confirmedResistance s |})
          as H.
        rewrite G in H. cbn [bounceCount] in H. lia.
      * rewrite (obj_set_any confirmedResistance _ _ _ a G).
        -- cbn [confirmedResistance]. rewrite IH2.
           assert (Ha : confirmedResistance a = true ->
                        existsb confirmedResistance l = true).
           { intro T. rewrite <- IH2. apply existsb_exists. exists a.
             split; [|exact T].
             apply (obj_values_get _ _ N). eauto. }
           destruct (confirmedResistance a); [|reflexivity].
           rewrite (Ha eq_refl). reflexivity.
        -- cbn [confirmedResistance].
           now destruct (confirmedResistance a), (confirmedResistance s).
    + pose proof (obj_get_none_absent _ _ N G) as K.
      rewrite (obj_set_absent _ _ _ K). unfold obj_values in *.
      rewrite !map_app, existsb_app.
      change (map bounceCount (map snd [(s_zone s, s)]))
        with [bounceCount s].
      change (existsb confirmedResistance (map snd [(s_zone s, s)]))
        with (confirmedResistance s || false).
      rewrite list_sum_snoc, orb_false_r, IH1, IH2. split; reflexivity.
Qed.

Lemma aggregateResistances_totals l :
  list_sum (map dropCount (obj_values (aggregateResistances l)))
  = list_sum (map dropCount l).
Proof.
  induction l as [|r l IH] using rev_ind.
  - reflexivity.
  - rewrite aggregateResistances_snoc. cbv zeta.
    rewrite map_app.
    change (map dropCount [r]) with [dropCount r].
    rewrite list_sum_snoc.
    destruct (aggregateResistances_spec l) as [N _].
    destruct (obj_get (aggregateResistances l) (r_zone r)) as [a|] eqn:G.
    + pose proof (obj_set_sum dropCount (aggregateResistances l) (r_zone r)
                    {| r_zone := r_zone a;
                       dropCount := dropCount a + dropCount r |}) as H.
      rewrite G in H. cbn [dropCount] in H. lia.
    + pose proof (obj_get_none_absent _ _ N G) as K.
      rewrite (obj_set_absent _ _ _ K). unfold obj_values in *.
      rewrite !map_app.
      change (map dropCount (map snd [(r_zone r, r)])) with [dropCount r].
      rewrite list_sum_snoc, IH. reflexivity.
Qed.

Lemma existsb_perm {A} (f : A -> bool) l l' :
  Permutation l l' -> existsb f l = existsb f l'.
Proof.
  induction 1; cbn; auto.
  - now rewrite IHPermutation.
  - now rewrite !orb_assoc, (orb_comm (f y)).
  - congruence.
Qed.

Lemma list_sum_perm l l' : Permutation l l' -> list_sum l = list_sum l'.
Proof.
  induction 1; rewrite ?list_sum_cons; lia.
Qed.

(** X6.  Aggregation merges records without losing confirmations: the
    bounce counts of the resulting supports add up to those of the raw
    supports, the drop counts of the resulting resistances to those of
    the raw resistances, and some resulting support is flagged as a former
    resistance exactly when some raw support is. *)
Theorem aggregation_keeps_totals :
  forall pd latest out,
    latestPrice pd = Some latest ->
    findSupportLevels pd = Some out ->
    let st := mainLoop pd (latest * (1 # 2)) in
    list_sum (map bounceCount (supportZones out))
    = list_sum (map bounceCount (rawSupports st))
    /\ list_sum (map dropCount (resistanceZones out))
       = list_sum (map dropCount (rawResistances st))
    /\ existsb confirmedResistance (supportZones out)
       = existsb confirmedResistance (rawSupports st).
Proof.
  intros pd latest out L F st.
  destruct (findSupportLevels_some pd latest out L F) as (ES & ER & _).
  fold st in ES, ER.
  destruct (aggregateSupports_totals (rawSupports st)) as [T1 T2].
  pose proof (aggregateResistances_totals (rawResistances st)) as T3.
  rewrite ES, ER. repeat split.
  - rewrite <- T1. symmetry. apply list_sum_perm, Permutation_map, js_sort_perm.
  - rewrite <- T3. symmetry. apply list_sum_perm, Permutation_map, js_sort_perm.
  - rewrite <- T2. symmetry. apply existsb_perm, js_sort_perm.
Qed.

Lemma aggregation_keeps_totals_witness :
  latestPrice pennies = Some (140 # 10000)
  /\ (exists out, findSupportLevels pennies = Some out
        /\ list_sum (map bounceCount (supportZones out)) = 6%nat)
  /\ list_sum
       (map bounceCount
            (rawSupports (mainLoop pennies ((140 # 10000) * (1 # 2)))))
     = 6%nat.
Proof.
  destruct (findSupportLevels pennies) as [out|] eqn:F;
    [|vm_compute in F; discriminate].
  assert (E : list_sum (map bounceCount (supportZones out)) = 6%nat).
  { vm_compute in F. injection F as <-. reflexivity. }
  split; [reflexivity|].
  split; [exists out; split; [reflexivity | exact E]|].
  rewrite <- E. symmetry.
  exact (proj1 (aggregation_keeps_totals pennies (140 # 10000) out eq_refl F)).
Defined.

(** X7.  Overlap records only restate supports: each one carries the zone
    text of a support of the result, there are no more of them than
    supports, and there is none when the result has no resistance. *)
Theorem highlights_follow_supports :
  forall pd out,
    findSupportLevels pd = Some out ->
    (forall h, In h (highlightedZones out) ->
               exists s, In s (supportZones out) /\ h_zone h = s_zone s)
    /\ (List.length (highlightedZones out)
        <= List.length (supportZones out))%nat
    /\ (resistanceZones out = [] -> highlightedZones out = []).
Proof.
  intros pd out F.
  destruct (findSupportLevels_latest pd out F) as [latest L].
  destruct (findSupportLevels_some pd latest out L F) as (ES & ER & EH).
  assert (NS : NoDup (map s_zone (supportZones out)))
    by (rewrite ES; apply aggregated_supports_nodup).
  repeat split.
  - intros h Hh. apply (highlighted_in pd out h F) in Hh as (s & Hs & _ & ->).
    now exists s.
  - rewrite EH, (tempHighlights_spec _ _ NS).
    rewrite <- (Permutation_length (js_sort_perm h_zone _)).
    unfold spec_overlapRecords. rewrite length_map.
    apply filter_length_le.
  - intro E. rewrite EH, E, tempHighlights_no_resistance. reflexivity.
Qed.

Lemma highlights_follow_supports_witness :
  exists out,
    findSupportLevels sample = Some out
    /\ (List.length (highlightedZones out)
        <= List.length (supportZones out))%nat.
Proof.
  destruct (findSupportLevels sample) as [out|] eqn:F;
    [|vm_compute in F; discriminate].
  exists out. split; [reflexivity|].
  exact (proj1 (proj2 (highlights_follow_supports sample out F))).
Defined.

(** *** Series without reversals *)

Lemma in_range a b x : In x (JS.range a b) <-> (a <= x < b)%nat.
Proof. unfold JS.range. rewrite in_seq. lia. Qed.

Lemma lp_at_prices l i d : lp_at (prices l) i = nth i l d \/ (List.length l <= i)%nat.
Proof.
  destruct (Nat.lt_ge_cases i (List.length l)) as [H|H]; [left | now right].
  unfold lp_at, prices.
  rewrite (nth_indep _ _ {| lp := d |})
    by (rewrite length_map; exact H).
  now rewrite (map_nth (fun p => {| lp := p |})).
Qed.

Lemma no_reversal_count pd reversal type i :
  (forall j k, (j < k < List.length pd)%nat -> reversal j k = false) ->
  countReversals pd reversal type i = O.
Proof.
  intro H. rewrite countReversals_loop.
  destruct (trendLineMatch pd i 10 type); [|reflexivity].
  rewrite (filter_ext_in _ (fun _ => false)).
  - induction (JS.range (i + 1) (List.length pd)); cbn; auto.
  - intros j Hj. apply in_range in Hj.
    replace (existsb (reversal j) (JS.range (j + 1) (List.length pd)))
      with false; [apply andb_false_r|].
    symmetry. apply existsb_false, Forall_forall.
    intros k Hk. apply in_range in Hk. apply H. lia.
Qed.

Lemma no_count_no_support pd mv :
  (forall i, (countReversals pd (rises pd) "support" i < 3)%nat) ->
  rawSupports (mainLoop pd mv) = [].
Proof.
  intro H. destruct (rawSupports (mainLoop pd mv)) as [|s l] eqn:E; auto.
  assert (Hs : In s (rawSupports (mainLoop pd mv))) by (rewrite E; now left).
  apply raw_support_origin in Hs as (i & _ & _ & A). specialize (H i). lia.
Qed.

Lemma no_count_no_resistance pd mv :
  (forall i, (countReversals pd (drops pd) "resistance" i < 3)%nat) ->
  rawResistances (mainLoop pd mv) = [].
Proof.
  intro H. destruct (rawResistances (mainLoop pd mv)) as [|s l] eqn:E; auto.
  assert (Hs : In s (rawResistances (mainLoop pd mv)))
    by (rewrite E; now left).
  apply raw_resistance_origin in Hs as (i & _ & _ & A). specialize (H i). lia.
Qed.

(** X8.  A series of positive prices that never rises has no support zone
    (and so no overlap): no later price is 10% above an earlier one. *)
Theorem falling_series_no_support :
  forall pd out,
    (forall j, (j < List.length pd)%nat -> 0 < lp_at pd j) ->
    (forall j k, (j < k < List.length pd)%nat -> lp_at pd k <= lp_at pd j) ->
    findSupportLevels pd = Some out ->
    supportZones out = [] /\ highlightedZones out = [].
Proof.
  intros pd out P M F.
  destruct (findSupportLevels_latest pd out F) as [latest L].
  destruct (findSupportLevels_some pd latest out L F) as (ES & _ & EH).
  assert (E : supportZones out = []).
  { rewrite ES, no_count_no_support; [reflexivity|].
    intro i. rewrite no_reversal_count; [lia|].
    intros j k Hjk. destruct (rises pd j k) eqn:R; [|reflexivity].
    apply rises_pos in R; [|apply P; lia].
    specialize (M j k Hjk). specialize (P j ltac:(lia)). lra. }
  split; [exact E|]. rewrite EH, E. reflexivity.
Qed.

Lemma falling_series_no_support_witness :
  let pd := prices [100 # 1; 95 # 1; 95 # 1; 80 # 1; 70 # 1; 60 # 1] in
  (forall j, (j < List.length pd)%nat -> 0 < lp_at pd j)
  /\ (forall j k, (j < k < List.length pd)%nat -> lp_at pd k <= lp_at pd j)
  /\ exists out, findSupportLevels pd = Some out /\ supportZones out = [].
Proof.
  intro pd.
  assert (P : forall j, (j < List.length pd)%nat -> 0 < lp_at pd j).
  { intros j Hj. cbn in Hj.
    do 6 (destruct j as [|j]; [vm_compute; reflexivity|]). lia. }
  assert (M : forall j k, (j < k < List.length pd)%nat ->
                          lp_at pd k <= lp_at pd j).
  { intros j k Hjk. cbn in Hjk.
    do 6 (destruct j as [|j];
          [do 6 (destruct k as [|k];
                 [try lia; vm_compute; discriminate|]); lia|]).
    lia. }
  split; [exact P|]. split; [exact M|].
  destruct (findSupportLevels pd) as [out|] eqn:F;
    [|vm_compute in F; discriminate].
  exists out. split; [reflexivity|].
  exact (proj1 (falling_series_no_support pd out P M F)).
Defined.

(** X9.  A series of positive prices that never falls has no resistance
    zone (and so no overlap). *)
Theorem rising_series_no_resistance :
  forall pd out,
    (forall j, (j < List.length pd)%nat -> 0 < lp_at pd j) ->
    (forall j k, (j < k < List.length pd)%nat -> lp_at pd j <= lp_at pd k) ->
    findSupportLevels pd = Some out ->
    resistanceZones out = [] /\ highlightedZones out = [].
Proof.
  intros pd out P M F.
  destruct (findSupportLevels_latest pd out F) as [latest L].
  destruct (findSupportLevels_some pd latest out L F) as (_ & ER & EH).
  assert (E : resistanceZones out = []).
  { rewrite ER, no_count_no_resistance; [reflexivity|].
    intro i. rewrite no_reversal_count; [lia|].
    intros j k Hjk. destruct (drops pd j k) eqn:R; [|reflexivity].
    apply drops_pos in R; [|apply P; lia].
    specialize (M j k Hjk). specialize (P j ltac:(lia)). lra. }
  split; [exact E|].
  rewrite EH, E, tempHighlights_no_resistance. reflexivity.
Qed.

Lemma rising_series_no_resistance_witness :
  let pd := prices [60 # 1; 70 # 1; 80 # 1; 95 # 1; 95 # 1; 100 # 1] in
  (forall j, (j < List.length pd)%nat -> 0 < lp_at pd j)
  /\ (forall j k, (j < k < List.length pd)%nat -> lp_at pd j <= lp_at pd k)
  /\ exists out, findSupportLevels pd = Some out /\ resistanceZones out = [].
Proof.
  intro pd.
  assert (P : forall j, (j < List.length pd)%nat -> 0 < lp_at pd j).
  { intros j Hj. cbn in Hj.
    do 6 (destruct j as [|j]; [vm_compute; reflexivity|]). lia. }
  assert (M : forall j k, (j < k < List.length pd)%nat ->
                          lp_at pd j <= lp_at pd k).
  { intros j k Hjk. cbn in Hjk.
    do 6 (destruct j as [|j];
          [do 6 (destruct k as [|k];
                 [try lia; vm_compute; discriminate|]); lia|]).
    lia. }
  split; [exact P|]. split; [exact M|].
  destruct (findSupportLevels pd) as [out|] eqn:F;
    [|vm_compute in F; discriminate].
  exists out. split; [reflexivity|].
  exact (proj1 (rising_series_no_resistance pd out P M F)).
Defined.

Lemma same_price_no_reversal p :
  JS.ge (JS.div (p - p) p) (1 # 10) = false.
Proof.
  unfold JS.div. destruct (Qeq_bool p 0) eqn:Z.
  - assert (E1 : JS.ltb 0 (p - p) = false) by (apply ltb_ge; lra).
    assert (E2 : JS.ltb (p - p) 0 = false) by (apply ltb_ge; lra).
    now rewrite E1, E2.
  - cbn [JS.ge]. apply Qeq_bool_neq in Z.
    destruct (Qle_bool (1 # 10) ((p - p) / p)) eqn:E; [|reflexivity].
    apply Qle_bool_iff in E.
    assert (H : (p - p) / p == 0) by (field; exact Z).
    rewrite H in E. lra.
Qed.

(** X10.  A flat series, of any length and any price, yields no zone: the
    price never moves by 10%. *)
Theorem flat_series_no_zones :
  forall p n, findSupportLevels (prices (repeat p (S n))) = Some noZones.
Proof.
  intros p n.
  set (pd := prices (repeat p (S n))).
  assert (N : pd <> []) by discriminate.
  destruct (findSupportLevels_total pd N) as [out F].
  destruct (findSupportLevels_latest pd out F) as [latest L].
  assert (E : forall j, (j < List.length pd)%nat -> lp_at pd j = p).
  { intros j Hj. unfold pd in *. unfold prices in Hj.
    rewrite length_map in Hj.
    destruct (lp_at_prices (repeat p (S n)) j p) as [->|H]; [|lia].
    apply nth_repeat. }
  apply (counts_zero_no_zones pd latest L); intro i;
    (rewrite no_reversal_count; [lia|]); intros j k Hjk.
  - unfold rises. rewrite !E by lia. apply same_price_no_reversal.
  - unfold drops. rewrite !E by lia. apply same_price_no_reversal.
Qed.

(** *** Edges of the trend validator *)

Lemma trendCount_filter pd b range type :
  trendCount pd b range type
  = List.length
      (filter (on_trend pd b type)
              (JS.range (b + 1) (Nat.min (b + range) (List.length pd)))).
Proof. unfold trendCount. now rewrite fold_count. Qed.

(** X11.  The validator looks at the [range - 1] observations after the
    base, so a range of 3 or less can never collect the three matches it
    requires. *)
Theorem trend_needs_range_four :
  forall pd baseIndex range type,
    (range <= 3)%nat -> trendLineMatch pd baseIndex range type = false.
Proof.
  intros pd b range type H. unfold trendLineMatch. apply Nat.leb_gt.
  rewrite trendCount_filter.
  eapply Nat.le_lt_trans; [apply filter_length_le|].
  unfold JS.range. rewrite length_seq. lia.
Qed.

Lemma trend_needs_range_four_witness :
  (3 <= 3)%nat
  /\ trendLineMatch (prices [100 # 1; 99 # 1; 98 # 1; 97 # 1]) 0 3 "support"
     = false
  /\ trendLineMatch (prices [100 # 1; 99 # 1; 98 # 1; 97 # 1]) 0 4 "support"
     = true.
Proof.
  split; [lia|]. split; [|vm_compute; reflexivity].
  apply (trend_needs_range_four
           (prices [100 # 1; 99 # 1; 98 # 1; 97 # 1]) 0 3 "support").
  lia.
Defined.

(** X12.  Widening the look-ahead range never turns a match into a
    mismatch. *)
Theorem trend_monotone_in_range :
  forall pd baseIndex range range' type,
    (range <= range')%nat ->
    trendLineMatch pd baseIndex range type = true ->
    trendLineMatch pd baseIndex range' type = true.
Proof.
  intros pd b range range' type H. unfold trendLineMatch.
  rewrite !Nat.leb_le, !trendCount_filter. intro T.
  etransitivity; [exact T|].
  set (m := Nat.min (b + range) (List.length pd)).
  set (m' := Nat.min (b + range') (List.length pd)).
  assert (Hm : (m <= m')%nat) by (unfold m, m'; lia).
  unfold JS.range.
  replace (m' - (b + 1))%nat
    with ((m - (b + 1)) + (m' - (b + 1) - (m - (b + 1))))%nat by lia.
  rewrite seq_app, filter_app, length_app. lia.
Qed.

Lemma trend_monotone_in_range_witness :
  let pd := prices [100 # 1; 99 # 1; 98 # 1; 97 # 1; 110 # 1] in
  (4 <= 10)%nat
  /\ trendLineMatch pd 0 4 "support" = true
  /\ trendLineMatch pd 0 10 "support" = true.
Proof.
  intro pd.
  assert (H : (4 <= 10)%nat) by lia.
  assert (T : trendLineMatch pd 0 4 "support" = true)
    by (vm_compute; reflexivity).
  split; [exact H|]. split; [exact T|].
  exact (trend_monotone_in_range pd 0 4 10 "support" H T).
Defined.

(** *** Edges of the historical-resistance check *)

Lemma acted_iff pd index price :
  actedAsResistanceBefore pd index price = true
  <-> exists i j,
        (i < j < index)%nat
        /\ JS.le (JS.div (Qabs (lp_at pd i - price)) price) (1 # 20) = true
        /\ JS.ge (JS.div (lp_at pd i - lp_at pd j) (lp_at pd i)) (1 # 10)
           = true.
Proof.
  unfold actedAsResistanceBefore. rewrite existsb_exists. split.
  - intros (i & Hi & H). apply in_range in Hi.
    apply andb_true_iff in H as [N D].
    apply existsb_exists in D as (j & Hj & D). apply in_range in Hj.
    exists i, j. repeat split; auto; lia.
  - intros (i & j & Hij & N & D).
    exists i. split; [apply in_range; lia|].
    rewrite N. cbn [andb]. apply existsb_exists.
    exists j. split; [apply in_range; lia | exact D].
Qed.

(** X14.  The check needs an earlier touch and a fall after it, both before
    the index: at index 0 or 1 it is false whatever the prices. *)
Theorem acted_needs_two_earlier :
  forall pd index price,
    (index <= 1)%nat -> actedAsResistanceBefore pd index price = false.
Proof.
  intros pd index price H.
  destruct (actedAsResistanceBefore pd index price) eqn:E; [|reflexivity].
  apply acted_iff in E as (i & j & Hij & _). lia.
Qed.

Lemma acted_needs_two_earlier_witness :
  (1 <= 1)%nat
  /\ actedAsResistanceBefore (prices [100 # 1; 85 # 1; 100 # 1]) 1 (100 # 1)
     = false
  /\ actedAsResistanceBefore (prices [100 # 1; 85 # 1; 100 # 1]) 2 (100 # 1)
     = true.
Proof.
  split; [lia|]. split; [|vm_compute; reflexivity].
  apply (acted_needs_two_earlier (prices [100 # 1; 85 # 1; 100 # 1]) 1
                                 (100 # 1)).
  lia.
Defined.

(** X15.  Once a price has acted as resistance before an index it has done
    so before every later index. *)
Theorem acted_monotone_in_index :
  forall pd index index' price,
    (index <= index')%nat ->
    actedAsResistanceBefore pd index price = true ->
    actedAsResistanceBefore pd index' price = true.
Proof.
  intros pd index index' price H E.
  apply acted_iff in E as (i & j & Hij & N & D).
  apply acted_iff. exists i, j. repeat split; auto; lia.
Qed.

Lemma acted_monotone_in_index_witness :
  (2 <= 4)%nat
  /\ actedAsResistanceBefore revisited 2 (100 # 1) = true
  /\ actedAsResistanceBefore revisited 4 (100 # 1) = true.
Proof.
  assert (H : (2 <= 4)%nat) by lia.
  assert (E : actedAsResistanceBefore revisited 2 (100 # 1) = true)
    by (vm_compute; reflexivity).
  split; [exact H|]. split; [exact E|].
  exact (acted_monotone_in_index revisited 2 4 (100 # 1) H E).
Defined.

(** *** What a base's counts depend on *)

Lemma fold_left_ext_in {A B} (f g : A -> B -> A) l a :
  (forall a x, In x l -> f a x = g a x) ->
  fold_left f l a = fold_left g l a.
Proof.
  revert a. induction l as [|x l IH]; cbn; intros a H; [reflexivity|].
  rewrite (H a x (or_introl eq_refl)). apply IH.
  intros; apply H; now right.
Qed.

Lemma first_reversal_ext_in (f g : nat -> bool) t ks :
  (forall k, In k ks -> f k = g k) ->
  first_reversal f t ks = first_reversal g t ks.
Proof.
  induction ks as [|k ks IH]; cbn; intro H; [reflexivity|].
  rewrite (H k (or_introl eq_refl)), IH; [reflexivity|].
  intros; apply H; now right.
Qed.

Lemma existsb_ext_in {A} (f g : A -> bool) l :
  (forall x, In x l -> f x = g x) -> existsb f l = existsb g l.
Proof.
  induction l as [|x l IH]; cbn; intro H; [reflexivity|].
  rewrite (H x (or_introl eq_refl)), IH; [reflexivity|].
  intros; apply H; now right.
Qed.

Section Locality.
Variables pd pd' : list observation.
Variable i : nat.
Hypothesis same_length : List.length pd = List.length pd'.
Hypothesis same_suffix : forall j, (i <= j)%nat -> lp_at pd j = lp_at pd' j.

Lemma trendLineMatch_suffix range type :
  trendLineMatch pd i range type = trendLineMatch pd' i range type.
Proof.
  unfold trendLineMatch, trendCount. rewrite <- same_length. f_equal.
  apply fold_left_ext_in. intros c j Hj. apply in_range in Hj.
  unfold on_trend, expected.
  now rewrite (same_suffix i), (same_suffix j) by lia.
Qed.

Lemma countReversals_suffix (reversal reversal' : nat -> nat -> bool) type :
  (forall j k, (i <= j)%nat -> (j <= k)%nat -> reversal j k = reversal' j k) ->
  countReversals pd reversal type i = countReversals pd' reversal' type i.
Proof.
  intro R. unfold countReversals.
  rewrite <- same_length, <- (trendLineMatch_suffix 10 type).
  apply fold_left_ext_in. intros c j Hj. apply in_range in Hj.
  unfold near. rewrite (same_suffix i), (same_suffix j) by lia.
  destruct (JS.le _ _); [|reflexivity]. f_equal.
  apply first_reversal_ext_in. intros k Hk. apply in_range in Hk.
  apply R; lia.
Qed.

End Locality.

(** X16.  The trend validation and the bounce and drop counts of a base
    depend only on the observations from the base on: two series of the
    same length that agree from index [i] on give the same results at [i]. *)
Theorem counts_depend_on_suffix :
  forall pd pd' i,
    List.length pd = List.length pd' ->
    (forall j, (i <= j)%nat -> lp_at pd j = lp_at pd' j) ->
    (forall range type,
        trendLineMatch pd i range type = trendLineMatch pd' i range type)
    /\ countReversals pd (rises pd) "support" i
       = countReversals pd' (rises pd') "support" i
    /\ countReversals pd (drops pd) "resistance" i
       = countReversals pd' (drops pd') "resistance" i.
Proof.
  intros pd pd' i L S. repeat split.
  - intros. now apply trendLineMatch_suffix.
  - apply countReversals_suffix; auto.
    intros j k Hj Hk. unfold rises. now rewrite !S by lia.
  - apply countReversals_suffix; auto.
    intros j k Hj Hk. unfold drops. now rewrite !S by lia.
Qed.

Lemma counts_depend_on_suffix_witness :
  let pd := prices [100 # 1; 85 # 1; 120 # 1; 130 # 1; 100 # 1;
                    99 # 1; 98 # 1; 97 # 1; 110 # 1] in
  let pd' := prices [1 # 1; 2 # 1; 3 # 1; 4 # 1; 100 # 1;
                     99 # 1; 98 # 1; 97 # 1; 110 # 1] in
  List.length pd = List.length pd'
  /\ (forall j, (4 <= j)%nat -> lp_at pd j = lp_at pd' j)
  /\ countReversals pd (rises pd) "support" 4
     = countReversals pd' (rises pd') "support" 4.
Proof.
  intros pd pd'.
  assert (L : List.length pd = List.length pd') by reflexivity.
  assert (S : forall j, (4 <= j)%nat -> lp_at pd j = lp_at pd' j).
  { intros j Hj. do 4 (destruct j as [|j]; [lia|]). reflexivity. }
  split; [exact L|]. split; [exact S|].
  exact (proj1 (proj2 (counts_depend_on_suffix pd pd' 4 L S))).
Defined.

(** X17.  The historical-resistance check at an index depends only on the
    observations before it. *)
Theorem acted_depends_on_prefix :
  forall pd pd' index price,
    (forall j, (j < index)%nat -> lp_at pd j = lp_at pd' j) ->
    actedAsResistanceBefore pd index price
    = actedAsResistanceBefore pd' index price.
Proof.
  intros pd pd' index price S. unfold actedAsResistanceBefore.
  apply existsb_ext_in. intros i Hi. apply in_range in Hi.
  rewrite (S i) by lia. f_equal.
  apply existsb_ext_in. intros j Hj. apply in_range in Hj.
  now rewrite (S j) by lia.
Qed.

Lemma acted_depends_on_prefix_witness :
  let pd := prices [100 # 1; 85 # 1; 120 # 1] in
  let pd' := prices [100 # 1; 85 # 1; 7 # 1; 8 # 1] in
  (forall j, (j < 2)%nat -> lp_at pd j = lp_at pd' j)
  /\ actedAsResistanceBefore pd 2 (100 # 1)
     = actedAsResistanceBefore pd' 2 (100 # 1).
Proof.
  intros pd pd'.
  assert (S : forall j, (j < 2)%nat -> lp_at pd j = lp_at pd' j).
  { intros j Hj. do 2 (destruct j as [|j]; [reflexivity|]). lia. }
  split; [exact S|].
  exact (acted_depends_on_prefix pd pd' 2 (100 # 1) S).
Defined.

(** *** Order and spacing of the raw zones *)









(** *** Zone texts *)





(** *** Shape of the zone texts *)





(** *** The first revision *)

Lemma flat_map_length_sum {A B} (f : A -> list B) l :
  List.length (flat_map f l) = list_sum (map (fun x => List.length (f x)) l).
Proof.
  induction l as [|x l IH]; cbn [flat_map map]; [reflexivity|].
  rewrite length_app, list_sum_cons, IH. reflexivity.
Qed.

Lemma raw_in_aggregated_supports l z :
  In z (map s_zone l)
  <-> In z (map s_zone (js_sort s_zone (obj_values (aggregateSupports l)))).
Proof.
  rewrite !in_map_iff. split.
  - intros (s & <- & Hs).
    destruct (spec_mergedSupport l (s_zone s)) as [a|] eqn:E.
    + exists a. split.
      * now apply merged_support_member in E as [E _].
      * apply aggregated_supports_in. eauto.
    + unfold spec_mergedSupport in E.
      destruct (supportGroup l (s_zone s)) eqn:G; [|discriminate].
      assert (H : In s (supportGroup l (s_zone s))).
      { apply filter_In. split; [exact Hs | apply String.eqb_refl]. }
      rewrite G in H. contradiction.
  - intros (a & <- & Ha). apply aggregated_supports_in in Ha as [z Hz].
    apply merged_support_member in Hz as (-> & s & Hs & Zs). eauto.
Qed.

Lemma raw_in_aggregated_resistances l z :
  In z (map r_zone l)
  <-> In z (map r_zone
              (js_sort r_zone (obj_values (aggregateResistances l)))).
Proof.
  rewrite !in_map_iff. split.
  - intros (r & <- & Hr).
    destruct (spec_mergedResistance l (r_zone r)) as [a|] eqn:E.
    + exists a. split.
      * now apply merged_resistance_member in E as [E _].
      * apply aggregated_resistances_in. eauto.
    + unfold spec_mergedResistance in E.
      destruct (resistanceGroup l (r_zone r)) eqn:G; [|discriminate].
      assert (H : In r (resistanceGroup l (r_zone r))).
      { apply filter_In. split; [exact Hr | apply String.eqb_refl]. }
      rewrite G in H. contradiction.
  - intros (a & <- & Ha). apply aggregated_resistances_in in Ha as [z Hz].
    apply merged_resistance_member in Hz as (-> & r & Hr & Zr). eauto.
Qed.

(** X23.  The two revisions fail on the same input (the empty series) and
    report the same zone texts: a text is the zone of a support (of a
    resistance) of the first revision exactly when it is the zone of one of
    the second; the second never has more zones than the first. *)
Theorem revisions_report_same_zones :
  forall pd,
    (findSupportLevels_first pd = None <-> findSupportLevels pd = None)
    /\ forall first second,
         findSupportLevels_first pd = Some first ->
         findSupportLevels pd = Some second ->
         (forall z, In z (map s_zone (supportZones first))
                    <-> In z (map s_zone (supportZones second)))
         /\ (forall z, In z (map r_zone (resistanceZones first))
                       <-> In z (map r_zone (resistanceZones second)))
         /\ (List.length (supportZones second)
             <= List.length (supportZones first))%nat
         /\ (List.length (resistanceZones second)
             <= List.length (resistanceZones first))%nat.
Proof.
  intro pd. split.
  - unfold findSupportLevels_first, findSupportLevels.
    destruct (latestPrice pd); split; intro; (reflexivity || discriminate).
  - intros first second F1 F2.
    destruct (findSupportLevels_latest pd second F2) as [latest L].
    destruct (findSupportLevels_some pd latest second L F2) as (ES & ER & _).
    unfold findSupportLevels_first in F1. rewrite L in F1.
    injection F1 as <-. cbn [supportZones resistanceZones].
    rewrite ES, ER. repeat split.
    + apply raw_in_aggregated_supports.
    + apply raw_in_aggregated_supports.
    + apply raw_in_aggregated_resistances.
    + apply raw_in_aggregated_resistances.
    + rewrite <- (Permutation_length (js_sort_perm s_zone _)).
      rewrite <- (length_map s_zone (obj_values _)), aggregateSupports_keys.
      destruct (aggregateSupports_spec
                  (rawSupports (mainLoop pd (latest * (1 # 2))))) as [N _].
      rewrite <- (length_map s_zone (rawSupports _)).
      apply NoDup_incl_length; [exact N|].
      intros z Hz. rewrite <- aggregateSupports_keys in Hz.
      apply raw_in_aggregated_supports.
      apply (Permutation_in z
               (Permutation_map s_zone (js_sort_perm s_zone _))) in Hz.
      exact Hz.
    + rewrite <- (Permutation_length (js_sort_perm r_zone _)).
      rewrite <- (length_map r_zone (obj_values _)),
        aggregateResistances_keys.
      destruct (aggregateResistances_spec
                  (rawResistances (mainLoop pd (latest * (1 # 2)))))
        as [N _].
      rewrite <- (length_map r_zone (rawResistances _)).
      apply NoDup_incl_length; [exact N|].
      intros z Hz. rewrite <- aggregateResistances_keys in Hz.
      apply raw_in_aggregated_resistances.
      apply (Permutation_in z
               (Permutation_map r_zone (js_sort_perm r_zone _))) in Hz.
      exact Hz.
Qed.

Lemma revisions_report_same_zones_witness :
  exists first second,
    findSupportLevels_first pennies = Some first
    /\ findSupportLevels pennies = Some second
    /\ map s_zone (supportZones first) = ["0.01"; "0.01"]
    /\ map s_zone (supportZones second) = ["0.01"]
    /\ (List.length (supportZones second)
        <= List.length (supportZones first))%nat.
Proof.
  destruct (findSupportLevels_first pennies) as [first|] eqn:F1;
    [|vm_compute in F1; discriminate].
  destruct (findSupportLevels pennies) as [second|] eqn:F2;
    [|vm_compute in F2; discriminate].
  exists first, second.
  split; [reflexivity|]. split; [reflexivity|].
  split; [vm_compute in F1; injection F1 as <-; reflexivity|].
  split; [vm_compute in F2; injection F2 as <-; reflexivity|].
  exact (proj1 (proj2 (proj2
           (proj2 (revisions_report_same_zones pennies) first second F1 F2)))).
Defined.

(* ------------------------------------------------------------------ *)
(** ** The detector in binary64 *)

Section Binary64.
Import B64.

(** *** Loops as counts *)

Lemma b64_countReversals_loop pd reversal type i :
  countReversals pd reversal type i
  = if trendLineMatch pd i 10 type
    then List.length
           (filter (fun j => near pd (lp_at pd i) j
                             && existsb (reversal j)
                                        (JS.range (j + 1) (List.length pd)))
                   (JS.range (i + 1) (List.length pd)))
    else O.
Proof.
  unfold countReversals.
  set (t := trendLineMatch pd i 10 type).
  set (body := fun (count j : nat) => _).
  assert (G : forall js c,
             fold_left body js c
             = (c + if t
                    then List.length
                           (filter
                              (fun j => near pd (lp_at pd i) j
                                        && existsb (reversal j)
                                             (JS.range (j + 1)
                                                       (List.length pd)))
                              js)
                    else O)%nat).
  { induction js as [|j js IH]; intro c; cbn [fold_left filter].
    - destruct t; cbn; lia.
    - rewrite IH. unfold body. rewrite first_reversal_spec.
      destruct (near pd (lp_at pd i) j); cbn [andb]; [|reflexivity].
      destruct t; cbn [andb]; [|lia].
      destruct (existsb _ _); cbn [List.length]; lia. }
  apply G.
Qed.

Lemma b64_bounceCount_spec pd i :
  countReversals pd (rises pd) "support" i = spec_bounceCount pd i.
Proof.
  rewrite b64_countReversals_loop. unfold spec_bounceCount, spec_touchCount.
  destruct (trendLineMatch pd i 10 "support"); [|reflexivity].
  rewrite filter_range. f_equal. apply filter_ext. intro j.
  unfold spec_touch, spec_bounced, near, rises.
  rewrite existsb_range. now rewrite andb_assoc.
Qed.

Lemma b64_dropCount_spec pd i :
  countReversals pd (drops pd) "resistance" i = spec_dropCount pd i.
Proof.
  rewrite b64_countReversals_loop. unfold spec_dropCount, spec_touchCount.
  destruct (trendLineMatch pd i 10 "resistance"); [|reflexivity].
  rewrite filter_range. f_equal. apply filter_ext. intro j.
  unfold spec_touch, spec_dropped, near, drops.
  rewrite existsb_range. now rewrite andb_assoc.
Qed.

Lemma b64_countReversals_trend pd reversal type i :
  (0 < countReversals pd reversal type i)%nat ->
  trendLineMatch pd i 10 type = true.
Proof.
  rewrite b64_countReversals_loop.
  destruct (trendLineMatch pd i 10 type); [reflexivity | lia].
Qed.

(** *** One iteration of the main loop *)

Lemma b64_supportStep_skip pd i st :
  existsb (closeTo (lp_at pd i)) (checkedSupports st) = true ->
  supportStep pd i st = st.
Proof. intro H. unfold supportStep. now rewrite H. Qed.

Lemma b64_supportStep_few pd i st :
  (countReversals pd (rises pd) "support" i < 3)%nat ->
  supportStep pd i st = st.
Proof.
  intro H. unfold supportStep.
  destruct (negb _); [|reflexivity].
  destruct (Nat.leb_spec 3 (countReversals pd (rises pd) "support" i));
    [lia | reflexivity].
Qed.

Lemma b64_supportStep_emit pd i st :
  existsb (closeTo (lp_at pd i)) (checkedSupports st) = false ->
  (3 <= countReversals pd (rises pd) "support" i)%nat ->
  supportStep pd i st
  = {| rawSupports := rawSupports st ++ [support_at pd i];
       rawResistances := rawResistances st;
       checkedSupports := set_add (lp_at pd i) (checkedSupports st);
       checkedResistances := checkedResistances st |}.
Proof.
  intros H C. unfold supportStep. rewrite H. cbn [negb].
  destruct (Nat.leb_spec 3 (countReversals pd (rises pd) "support" i));
    [reflexivity | lia].
Qed.

Lemma b64_resistanceStep_skip pd i st :
  existsb (closeTo (lp_at pd i)) (checkedResistances st) = true ->
  resistanceStep pd i st = st.
Proof. intro H. unfold resistanceStep. now rewrite H. Qed.

Lemma b64_resistanceStep_few pd i st :
  (countReversals pd (drops pd) "resistance" i < 3)%nat ->
  resistanceStep pd i st = st.
Proof.
  intro H. unfold resistanceStep.
  destruct (negb _); [|reflexivity].
  destruct (Nat.leb_spec 3 (countReversals pd (drops pd) "resistance" i));
    [lia | reflexivity].
Qed.

Lemma b64_resistanceStep_emit pd i st :
  existsb (closeTo (lp_at pd i)) (checkedResistances st) = false ->
  (3 <= countReversals pd (drops pd) "resistance" i)%nat ->
  resistanceStep pd i st
  = {| rawSupports := rawSupports st;
       rawResistances := rawResistances st ++ [resistance_at pd i];
       checkedSupports := checkedSupports st;
       checkedResistances := set_add (lp_at pd i) (checkedResistances st) |}.
Proof.
  intros H C. unfold resistanceStep. rewrite H. cbn [negb].
  destruct (Nat.leb_spec 3 (countReversals pd (drops pd) "resistance" i));
    [reflexivity | lia].
Qed.

Lemma b64_resistanceStep_supports pd i st :
  rawSupports (resistanceStep pd i st) = rawSupports st
  /\ checkedSupports (resistanceStep pd i st) = checkedSupports st.
Proof.
  unfold resistanceStep.
  destruct (negb _); [|now split].
  destruct (3 <=? _)%nat; now split.
Qed.

Lemma b64_supportStep_resistances pd i st :
  rawResistances (supportStep pd i st) = rawResistances st
  /\ checkedResistances (supportStep pd i st) = checkedResistances st.
Proof.
  unfold supportStep.
  destruct (negb _); [|now split].
  destruct (3 <=? _)%nat; now split.
Qed.

(** *** Where the raw zones come from *)

Lemma b64_step_emitted pd mv st i :
  emitted pd mv st -> emitted pd mv (step pd mv st i).
Proof.
  intros [S R]. unfold step.
  destruct (PrimFloat.ltb (lp_at pd i) mv) eqn:B; [now split|].
  assert (H1 : emitted pd mv (supportStep pd i st)).
  { destruct (existsb (closeTo (lp_at pd i)) (checkedSupports st)) eqn:E.
    { rewrite b64_supportStep_skip by assumption. now split. }
    destruct (Nat.leb_spec 3 (countReversals pd (rises pd) "support" i)).
    2:{ rewrite b64_supportStep_few by assumption. now split. }
    rewrite b64_supportStep_emit by assumption.
    split; cbn [rawSupports rawResistances]; [|exact R].
    apply Forall_app. split; [exact S|].
    constructor; [|constructor]. exists i. auto. }
  destruct H1 as [S1 R1].
  set (st1 := supportStep pd i st) in *.
  destruct (existsb (closeTo (lp_at pd i)) (checkedResistances st1)) eqn:E.
  { rewrite b64_resistanceStep_skip by assumption. now split. }
  destruct (Nat.leb_spec 3 (countReversals pd (drops pd) "resistance" i)).
  2:{ rewrite b64_resistanceStep_few by assumption. now split. }
  rewrite b64_resistanceStep_emit by assumption.
  split; cbn [rawSupports rawResistances]; [exact S1|].
  apply Forall_app. split; [exact R1|].
  constructor; [|constructor]. exists i. auto.
Qed.

Lemma b64_mainLoop_emitted pd mv : emitted pd mv (mainLoop pd mv).
Proof.
  unfold mainLoop.
  assert (G : forall l st,
             emitted pd mv st ->
             emitted pd mv (fold_left (step pd mv) l st)).
  { induction l as [|i l IH]; intros st H; cbn [fold_left]; [exact H|].
    apply IH. now apply b64_step_emitted. }
  apply G. split; constructor.
Qed.

Lemma b64_raw_support_origin pd mv s :
  In s (rawSupports (mainLoop pd mv)) ->
  exists i, s = support_at pd i
            /\ PrimFloat.ltb (lp_at pd i) mv = false
            /\ (3 <= countReversals pd (rises pd) "support" i)%nat.
Proof.
  destruct (b64_mainLoop_emitted pd mv) as [S _].
  rewrite Forall_forall in S. apply S.
Qed.

Lemma b64_raw_resistance_origin pd mv r :
  In r (rawResistances (mainLoop pd mv)) ->
  exists i, r = resistance_at pd i
            /\ PrimFloat.ltb (lp_at pd i) mv = false
            /\ (3 <= countReversals pd (drops pd) "resistance" i)%nat.
Proof.
  destruct (b64_mainLoop_emitted pd mv) as [_ R].
  rewrite Forall_forall in R. apply R.
Qed.

End Binary64.

Section Binary64Order.
Import B64.

(** *** Sorting *)

Lemma b64_x_ltb_le a b : x_ltb a b = true -> x_le a b.
Proof.
  destruct a as [| |x|], b as [| |y|]; cbn; try discriminate; auto.
  intro H. apply ltb_lt in H. lra.
Qed.

Lemma b64_x_ltb_ge a b :
  a <> XNaN -> b <> XNaN -> x_ltb a b = false -> x_le b a.
Proof.
  destruct a as [| |x|], b as [| |y|]; cbn; try discriminate; auto;
    try congruence.
  intros _ _ H. now apply ltb_ge in H.
Qed.

Lemma b64_x_le_trans a b c : x_le a b -> x_le b c -> x_le a c.
Proof.
  destruct a as [| |x|], b as [| |y|], c as [| |z|]; cbn; auto;
    try contradiction.
  intros. lra.
Qed.

Lemma b64_insert_sorted_perm {A} (key : A -> string) x l :
  Permutation (x :: l) (insert_sorted key x l).
Proof.
  induction l as [|y l IH]; cbn [insert_sorted].
  - reflexivity.
  - destruct (cmp_gt (key y) (key x)).
    + reflexivity.
    + rewrite perm_swap. now apply perm_skip.
Qed.

Lemma b64_js_sort_snoc {A} (key : A -> string) l x :
  js_sort key (l ++ [x]) = insert_sorted key x (js_sort key l).
Proof. unfold js_sort. now rewrite fold_left_app. Qed.

Lemma b64_js_sort_perm {A} (key : A -> string) l :
  Permutation l (js_sort key l).
Proof.
  induction l as [|x l IH] using rev_ind.
  - reflexivity.
  - rewrite b64_js_sort_snoc, <- b64_insert_sorted_perm.
    rewrite <- IH. apply Permutation_sym, Permutation_cons_append.
Qed.

Lemma b64_js_sort_in {A} (key : A -> string) l x :
  In x (js_sort key l) <-> In x l.
Proof.
  split; apply Permutation_in;
    [apply Permutation_sym|]; apply b64_js_sort_perm.
Qed.

Lemma b64_insert_sorted_sorted {A} (key : A -> string) x l :
  numeric (key x) -> Forall (fun y => numeric (key y)) l ->
  StronglySorted (fun a b => zone_le (key a) (key b)) l ->
  StronglySorted (fun a b => zone_le (key a) (key b))
                 (insert_sorted key x l).
Proof.
  intros Hx Hl S.
  induction S as [|y l S IH F]; cbn [insert_sorted].
  - repeat constructor.
  - inversion Hl as [|? ? Hy Hl']; subst.
    unfold cmp_gt.
    destruct (x_ltb (value (parseFloat_sf (key x)))
                    (value (parseFloat_sf (key y)))) eqn:E.
    + apply b64_x_ltb_le in E.
      constructor; [constructor; assumption|].
      constructor; [exact E|].
      rewrite Forall_forall in F |- *. intros z Hz.
      exact (b64_x_le_trans _ _ _ E (F z Hz)).
    + apply b64_x_ltb_ge in E; [|exact Hx|exact Hy].
      constructor; [apply IH; assumption|].
      rewrite Forall_forall in F |- *. intros z Hz.
      apply (Permutation_in
               _ (Permutation_sym (b64_insert_sorted_perm key x l))) in Hz.
      destruct Hz as [<- | Hz]; [exact E | auto].
Qed.

Lemma b64_js_sort_sorted {A} (key : A -> string) l :
  Forall (fun y => numeric (key y)) l ->
  StronglySorted (fun a b => zone_le (key a) (key b)) (js_sort key l).
Proof.
  induction l as [|x l IH] using rev_ind; intro F.
  - constructor.
  - apply Forall_app in F as [F Fx]. inversion Fx; subst.
    rewrite b64_js_sort_snoc. apply b64_insert_sorted_sorted; auto.
    rewrite Forall_forall in F |- *. intros z Hz. apply F.
    exact (proj1 (b64_js_sort_in key l z) Hz).
Qed.

(** *** A quotient by NaN is NaN *)

Lemma b64_value_nan f : value f = XNaN -> f = S754_nan.
Proof. destruct f as [[|]|[|]| |s m e]; cbn; congruence. Qed.

Lemma b64_leb_div_nan a c :
  PrimFloat.leb (PrimFloat.div a PrimFloat.nan) c = false.
Proof.
  rewrite leb_spec, div_spec.
  change (Prim2SF PrimFloat.nan) with S754_nan.
  destruct (Prim2SF a) as [[|]|[|]| |s m e]; reflexivity.
Qed.

Lemma b64_overlaps_numeric s r : overlaps s r = true -> numeric (s_zone s).
Proof.
  unfold overlaps, numeric, parseFloat. intros H N.
  apply b64_value_nan in N. rewrite N in H.
  change (SF2Prim S754_nan) with PrimFloat.nan in H.
  rewrite b64_leb_div_nan in H. discriminate.
Qed.

(** *** Highlighted zones *)

Lemma b64_highlightPair_miss m s r :
  overlaps s r = false -> highlightPair m s r = m.
Proof. intro H. unfold highlightPair. now rewrite H. Qed.

Lemma b64_highlightPair_present m s r h :
  ~ In (s_zone s) (keys m) -> overlaps s r = true ->
  highlightPair (m ++ [(s_zone s, h)]) s r
  = m ++ [(s_zone s,
           {| h_zone := h_zone h;
              supportBounceCount := supportBounceCount h + bounceCount s;
              resistanceDropCount := resistanceDropCount h + dropCount r;
              h_type := h_type h |})].
Proof.
  intros K H. unfold highlightPair. rewrite H.
  rewrite (obj_get_last _ _ _ K), (obj_get_last _ _ _ K).
  rewrite (obj_set_last _ _ _ _ K), or0_id. reflexivity.
Qed.

Lemma b64_highlightPair_absent m s r :
  ~ In (s_zone s) (keys m) -> overlaps s r = true ->
  highlightPair m s r
  = m ++ [(s_zone s,
           {| h_zone := s_zone s;
              supportBounceCount := bounceCount s;
              resistanceDropCount := dropCount r;
              h_type := overlapType |})].
Proof.
  intros K H. unfold highlightPair. rewrite H.
  rewrite (obj_get_absent _ _ K), (obj_set_absent _ _ _ K).
  rewrite (obj_get_last _ _ _ K), (obj_set_last _ _ _ _ K), or0_id.
  reflexivity.
Qed.

Lemma b64_inner_present s rs : forall m h,
  ~ In (s_zone s) (keys m) ->
  fold_left (fun m' r => highlightPair m' s r) rs (m ++ [(s_zone s, h)])
  = m ++ [(s_zone s,
           {| h_zone := h_zone h;
              supportBounceCount :=
                supportBounceCount h
                + list_sum (map (fun _ => bounceCount s)
                                (filter (overlaps s) rs));
              resistanceDropCount :=
                resistanceDropCount h
                + list_sum (map dropCount (filter (overlaps s) rs));
              h_type := h_type h |})].
Proof.
  induction rs as [|r rs IH]; intros m h K; cbn [fold_left filter].
  - cbn. rewrite !Nat.add_0_r. now destruct h.
  - destruct (overlaps s r) eqn:E.
    + rewrite (b64_highlightPair_present _ _ _ _ K E), (IH _ _ K).
      cbn [map list_sum h_zone supportBounceCount resistanceDropCount h_type].
      rewrite !list_sum_cons. do 3 f_equal. f_equal; lia.
    + rewrite (b64_highlightPair_miss _ _ _ E). now apply IH.
Qed.

Lemma b64_inner_absent s rs : forall m,
  ~ In (s_zone s) (keys m) ->
  fold_left (fun m' r => highlightPair m' s r) rs m
  = if existsb (overlaps s) rs
    then m ++ [(s_zone s, spec_overlapRecord rs s)]
    else m.
Proof.
  induction rs as [|r rs IH]; intros m K; cbn [fold_left existsb].
  - reflexivity.
  - unfold spec_overlapRecord. cbn [filter].
    destruct (overlaps s r) eqn:E; cbn [orb].
    + rewrite (b64_highlightPair_absent _ _ _ K E),
        (b64_inner_present _ _ _ _ K).
      reflexivity.
    + rewrite (b64_highlightPair_miss _ _ _ E). now apply IH.
Qed.

Lemma b64_tempHighlights_from rs ss : forall m,
  NoDup (map s_zone ss) ->
  (forall s, In s ss -> ~ In (s_zone s) (keys m)) ->
  fold_left (fun m s => fold_left (fun m' r => highlightPair m' s r) rs m) ss m
  = m ++ map (fun s => (s_zone s, spec_overlapRecord rs s))
             (filter (fun s => existsb (overlaps s) rs) ss).
Proof.
  induction ss as [|s ss IH]; intros m N K; cbn [fold_left filter map].
  - now rewrite app_nil_r.
  - inversion N as [|? ? Hs N']; subst.
    rewrite b64_inner_absent by (apply K; now left).
    destruct (existsb (overlaps s) rs).
    + rewrite IH; auto.
      * cbn [map]. now rewrite <- app_assoc.
      * intros s' Hs' Hin. unfold keys in Hin.
        rewrite map_app, in_app_iff in Hin. cbn in Hin.
        destruct Hin as [Hin | [Hin | []]].
        -- apply (K s'); [now right | exact Hin].
        -- apply Hs. rewrite Hin. now apply in_map.
    + apply IH; auto. intros s' Hs'. apply K. now right.
Qed.

Lemma b64_tempHighlights_spec ss rs :
  NoDup (map s_zone ss) ->
  obj_values (tempHighlights ss rs) = spec_overlapRecords ss rs.
Proof.
  intro N. unfold tempHighlights.
  rewrite b64_tempHighlights_from; [| assumption | intros ? ? []].
  unfold obj_values, spec_overlapRecords. rewrite app_nil_l, map_map.
  reflexivity.
Qed.

(** *** The result *)

Lemma b64_aggregated_supports_in l a :
  In a (js_sort s_zone (obj_values (aggregateSupports l)))
  <-> exists z, spec_mergedSupport l z = Some a.
Proof.
  destruct (aggregateSupports_spec l) as [N G].
  rewrite b64_js_sort_in, (obj_values_get _ _ N).
  split; intros [z Hz]; exists z; [rewrite <- G | rewrite G]; exact Hz.
Qed.

Lemma b64_aggregated_resistances_in l a :
  In a (js_sort r_zone (obj_values (aggregateResistances l)))
  <-> exists z, spec_mergedResistance l z = Some a.
Proof.
  destruct (aggregateResistances_spec l) as [N G].
  rewrite b64_js_sort_in, (obj_values_get _ _ N).
  split; intros [z Hz]; exists z; [rewrite <- G | rewrite G]; exact Hz.
Qed.

Lemma b64_aggregated_supports_nodup l :
  NoDup (map s_zone (js_sort s_zone (obj_values (aggregateSupports l)))).
Proof.
  destruct (aggregateSupports_spec l) as [N _].
  apply (Permutation_NoDup
           (l := map s_zone (obj_values (aggregateSupports l)))).
  - apply Permutation_map, b64_js_sort_perm.
  - now rewrite aggregateSupports_keys.
Qed.

Lemma b64_findSupportLevels_some pd latest out :
  latestPrice pd = Some latest -> findSupportLevels pd = Some out ->
  let st := mainLoop pd (PrimFloat.mul latest c_0_5) in
  supportZones out
  = js_sort s_zone (obj_values (aggregateSupports (rawSupports st)))
  /\ resistanceZones out
     = js_sort r_zone (obj_values (aggregateResistances (rawResistances st)))
  /\ highlightedZones out
     = js_sort h_zone
         (obj_values (tempHighlights (supportZones out) (resistanceZones out))).
Proof.
  intros L F. unfold findSupportLevels in F. rewrite L in F.
  injection F as <-. cbn. repeat split.
Qed.

Lemma b64_findSupportLevels_latest pd out :
  findSupportLevels pd = Some out -> exists latest, latestPrice pd = Some latest.
Proof.
  unfold findSupportLevels. destruct (latestPrice pd); [eauto | discriminate].
Qed.

Lemma b64_out_support_origin pd latest out a :
  latestPrice pd = Some latest -> findSupportLevels pd = Some out ->
  In a (supportZones out) ->
  exists i, s_zone a = toFixed2 (lp_at pd i)
            /\ PrimFloat.ltb (lp_at pd i) (PrimFloat.mul latest c_0_5) = false
            /\ (3 <= countReversals pd (rises pd) "support" i)%nat.
Proof.
  intros L F H.
  destruct (b64_findSupportLevels_some pd latest out L F) as (E & _ & _).
  rewrite E in H. apply b64_aggregated_supports_in in H as [z Hz].
  apply merged_support_member in Hz as (Za & s & Hs & Zs).
  apply b64_raw_support_origin in Hs as (i & -> & Hi).
  exists i. split; [|exact Hi]. rewrite Za, <- Zs. reflexivity.
Qed.

Lemma b64_out_resistance_origin pd latest out a :
  latestPrice pd = Some latest -> findSupportLevels pd = Some out ->
  In a (resistanceZones out) ->
  exists i, r_zone a = toFixed2 (lp_at pd i)
            /\ PrimFloat.ltb (lp_at pd i) (PrimFloat.mul latest c_0_5) = false
            /\ (3 <= countReversals pd (drops pd) "resistance" i)%nat.
Proof.
  intros L F H.
  destruct (b64_findSupportLevels_some pd latest out L F) as (_ & E & _).
  rewrite E in H. apply b64_aggregated_resistances_in in H as [z Hz].
  apply merged_resistance_member in Hz as (Za & r & Hr & Zr).
  apply b64_raw_resistance_origin in Hr as (i & -> & Hi).
  exists i. split; [|exact Hi]. rewrite Za, <- Zr. reflexivity.
Qed.

End Binary64Order.

(* ------------------------------------------------------------------ *)
(** ** The contracts in binary64 *)

Section Binary64Contracts.
Import B64.

(** C1.  Support path of the scanner, on the doubles the program computes
    with.  For a base index [i] whose price is not below 50% of the last
    price and is not within 5% of a previously accepted support price, the
    iteration counts the touches [j > i] (within 5% of the base price) that
    are followed by some [k > j] with a rise of at least 10% from the touch,
    once per touch and only when the support trend validation at [i]
    passes; it pushes the record {zone: price to two decimals, bounceCount,
    confirmedResistance} and adds the raw base price to the dedup set
    exactly when that count is at least 3. *)
Theorem support_scan_contract :
  forall pd latest st i,
    latestPrice pd = Some latest ->
    PrimFloat.ltb (lp_at pd i) (PrimFloat.mul latest c_0_5) = false ->
    Forall (fun p => closeTo (lp_at pd i) p = false) (checkedSupports st) ->
    let st' := step pd (PrimFloat.mul latest c_0_5) st i in
    let count := spec_bounceCount pd i in
    if (3 <=? count)%nat
    then rawSupports st'
         = rawSupports st
             ++ [ {| s_zone := toFixed2 (lp_at pd i);
                     bounceCount := count;
                     confirmedResistance :=
                       actedAsResistanceBefore pd i (lp_at pd i) |} ]
         /\ checkedSupports st' = set_add (lp_at pd i) (checkedSupports st)
    else rawSupports st' = rawSupports st
         /\ checkedSupports st' = checkedSupports st.
Proof.
  intros pd latest st i _ B C. cbv zeta.
  apply existsb_false in C.
  unfold step. rewrite B.
  destruct (b64_resistanceStep_supports pd i (supportStep pd i st)) as [-> ->].
  rewrite <- b64_bounceCount_spec.
  destruct (Nat.leb_spec 3 (countReversals pd (rises pd) "support" i)).
  - rewrite b64_supportStep_emit by assumption. now split.
  - rewrite b64_supportStep_few by assumption. now split.
Qed.

Lemma support_scan_contract_witness :
  let mv := PrimFloat.mul (lp_at twoDeclines 9) c_0_5 in
  let st := fold_left (step twoDeclines mv) (seq 0 5) emptyScan in
  latestPrice twoDeclines = Some (lp_at twoDeclines 9)
  /\ PrimFloat.ltb (lp_at twoDeclines 5) mv = false
  /\ checkedSupports st = [lp_at twoDeclines 0]
  /\ Forall (fun p => closeTo (lp_at twoDeclines 5) p = false)
            (checkedSupports st)
  /\ rawSupports (step twoDeclines mv st 5)
     = [ {| s_zone := "1000.00"; bounceCount := 3;
            confirmedResistance := false |};
         {| s_zone := "800.00"; bounceCount := 3;
            confirmedResistance := false |} ]
  /\ checkedSupports (step twoDeclines mv st 5)
     = [lp_at twoDeclines 0; lp_at twoDeclines 5].
Proof.
  intros mv st.
  assert (B : PrimFloat.ltb (lp_at twoDeclines 5)
                            (PrimFloat.mul (lp_at twoDeclines 9) c_0_5)
              = false) by (vm_compute; reflexivity).
  assert (C : Forall (fun p => closeTo (lp_at twoDeclines 5) p = false)
                     (checkedSupports st)).
  { vm_compute. repeat constructor. }
  split; [vm_compute; reflexivity|].
  split; [exact B|].
  split; [vm_compute; reflexivity|].
  split; [exact C|].
  exact (support_scan_contract twoDeclines (lp_at twoDeclines 9) st 5
                               eq_refl B C).
Defined.

(** X3.  Resistance path of the scanner, on doubles.  For a base whose
    price is not below half the last price and not within 5% of an accepted
    resistance price, the drop counter is the number of later touches
    (within 5%) followed by a fall of at least 10%, counted only when the
    resistance trend validation passes; the record {zone, dropCount} is
    pushed and the raw price added to the dedup set exactly when the
    counter is at least 3. *)
Theorem resistance_scan_contract :
  forall pd latest st i,
    latestPrice pd = Some latest ->
    PrimFloat.ltb (lp_at pd i) (PrimFloat.mul latest c_0_5) = false ->
    Forall (fun p => closeTo (lp_at pd i) p = false)
           (checkedResistances st) ->
    let st' := step pd (PrimFloat.mul latest c_0_5) st i in
    let count := spec_dropCount pd i in
    if (3 <=? count)%nat
    then rawResistances st'
         = rawResistances st
             ++ [ {| r_zone := toFixed2 (lp_at pd i); dropCount := count |} ]
         /\ checkedResistances st'
            = set_add (lp_at pd i) (checkedResistances st)
    else rawResistances st' = rawResistances st
         /\ checkedResistances st' = checkedResistances st.
Proof.
  intros pd latest st i _ B C. cbv zeta.
  apply existsb_false in C.
  unfold step. rewrite B.
  destruct (b64_supportStep_resistances pd i st) as [R1 R2].
  rewrite <- R2 in C. rewrite <- R1, <- R2.
  rewrite <- b64_dropCount_spec.
  destruct (Nat.leb_spec 3 (countReversals pd (drops pd) "resistance" i)).
  - rewrite b64_resistanceStep_emit by assumption. now split.
  - rewrite b64_resistanceStep_few by assumption. now split.
Qed.

Lemma resistance_scan_contract_witness :
  let mv := PrimFloat.mul (lp_at twoInclines 9) c_0_5 in
  let st := fold_left (step twoInclines mv) (seq 0 5) emptyScan in
  latestPrice twoInclines = Some (lp_at twoInclines 9)
  /\ PrimFloat.ltb (lp_at twoInclines 5) mv = false
  /\ checkedResistances st = [lp_at twoInclines 0]
  /\ Forall (fun p => closeTo (lp_at twoInclines 5) p = false)
            (checkedResistances st)
  /\ rawResistances (step twoInclines mv st 5)
     = [ {| r_zone := "1000.00"; dropCount := 3 |};
         {| r_zone := "1200.00"; dropCount := 3 |} ]
  /\ checkedResistances (step twoInclines mv st 5)
     = [lp_at twoInclines 0; lp_at twoInclines 5].
Proof.
  intros mv st.
  assert (B : PrimFloat.ltb (lp_at twoInclines 5)
                            (PrimFloat.mul (lp_at twoInclines 9) c_0_5)
              = false) by (vm_compute; reflexivity).
  assert (C : Forall (fun p => closeTo (lp_at twoInclines 5) p = false)
                     (checkedResistances st)).
  { vm_compute. repeat constructor. }
  split; [vm_compute; reflexivity|].
  split; [exact B|].
  split; [vm_compute; reflexivity|].
  split; [exact C|].
  exact (resistance_scan_contract twoInclines (lp_at twoInclines 9) st 5
                                  eq_refl B C).
Defined.

(** C7.  The historical-resistance check, on doubles, is true exactly when
    some earlier observation [i < index] lies within 5% of the candidate
    price (relative to the candidate) and some observation strictly between
    [i] and the index is at least 10% below that earlier price (relative to
    it); the record pushed for a base carries the check of that base and
    its price as [confirmedResistance]. *)
Theorem historical_resistance_contract :
  forall pd,
    (forall index price,
        actedAsResistanceBefore pd index price = true
        <-> exists i j,
              (i < j < index)%nat
              /\ PrimFloat.leb
                   (PrimFloat.div
                      (PrimFloat.abs (PrimFloat.sub (lp_at pd i) price))
                      price)
                   c_0_05 = true
              /\ PrimFloat.leb c_0_1
                   (PrimFloat.div
                      (PrimFloat.sub (lp_at pd i) (lp_at pd j))
                      (lp_at pd i)) = true)
    /\ (forall mv s,
          In s (rawSupports (mainLoop pd mv)) ->
          exists b, s_zone s = toFixed2 (lp_at pd b)
                    /\ confirmedResistance s
                       = actedAsResistanceBefore pd b (lp_at pd b)).
Proof.
  intro pd. split.
  - intros index price. unfold actedAsResistanceBefore, JS.range.
    rewrite existsb_exists. split.
    + intros (i & Hi & H). apply in_seq in Hi.
      apply andb_true_iff in H as [N D].
      apply existsb_exists in D as (j & Hj & D). apply in_seq in Hj.
      exists i, j. repeat split; auto; lia.
    + intros (i & j & Hij & N & D).
      exists i. split; [apply in_seq; lia|].
      rewrite N. cbn [andb]. apply existsb_exists.
      exists j. split; [apply in_seq; lia | exact D].
  - intros mv s Hs.
    apply b64_raw_support_origin in Hs as (b & -> & _).
    exists b. split; reflexivity.
Qed.

Lemma historical_resistance_contract_witness :
  let s := {| s_zone := "100.00"; bounceCount := 3;
              confirmedResistance := true |} in
  let mv := PrimFloat.mul (lp_at revisited 8) c_0_5 in
  In s (rawSupports (mainLoop revisited mv))
  /\ (exists b, s_zone s = toFixed2 (lp_at revisited b)
                /\ confirmedResistance s
                   = actedAsResistanceBefore revisited b (lp_at revisited b))
  /\ exists i j,
       (i < j < 4)%nat
       /\ PrimFloat.leb
            (PrimFloat.div
               (PrimFloat.abs (PrimFloat.sub (lp_at revisited i)
                                             (lp_at revisited 4)))
               (lp_at revisited 4))
            c_0_05 = true
       /\ PrimFloat.leb c_0_1
            (PrimFloat.div
               (PrimFloat.sub (lp_at revisited i) (lp_at revisited j))
               (lp_at revisited i)) = true.
Proof.
  intros s mv.
  assert (Hs : In s (rawSupports (mainLoop revisited mv)))
    by (vm_compute; now left).
  split; [exact Hs|]. split.
  - exact (proj2 (historical_resistance_contract revisited) _ s Hs).
  - apply (proj1 (historical_resistance_contract revisited)).
    vm_compute; reflexivity.
Defined.

(** C8.  All-or-nothing trend gating, on doubles: the bounce (drop)
    counter of a base is 0 when the trend validation at that base fails and
    the number of touches followed by a reversal of at least 10% when it
    passes; every Support (Resistance) zone of the result comes from a base
    that passes the support (resistance) trend validation. *)
Theorem trend_gating :
  forall pd out,
    findSupportLevels pd = Some out ->
    (forall i,
        countReversals pd (rises pd) "support" i
        = if trendLineMatch pd i 10 "support"
          then spec_touchCount pd (spec_bounced pd) i else O)
    /\ (forall i,
        countReversals pd (drops pd) "resistance" i
        = if trendLineMatch pd i 10 "resistance"
          then spec_touchCount pd (spec_dropped pd) i else O)
    /\ (forall s, In s (supportZones out) ->
          exists i, s_zone s = toFixed2 (lp_at pd i)
                    /\ trendLineMatch pd i 10 "support" = true)
    /\ (forall r, In r (resistanceZones out) ->
          exists i, r_zone r = toFixed2 (lp_at pd i)
                    /\ trendLineMatch pd i 10 "resistance" = true).
Proof.
  intros pd out F.
  destruct (b64_findSupportLevels_latest pd out F) as [latest L].
  repeat split.
  - intro i. apply b64_bounceCount_spec.
  - intro i. apply b64_dropCount_spec.
  - intros s Hs.
    destruct (b64_out_support_origin pd latest out s L F Hs)
      as (i & Z & _ & A).
    exists i. split; [exact Z|].
    apply (b64_countReversals_trend pd (rises pd)). lia.
  - intros r Hr.
    destruct (b64_out_resistance_origin pd latest out r L F Hr)
      as (i & Z & _ & A).
    exists i. split; [exact Z|].
    apply (b64_countReversals_trend pd (drops pd)). lia.
Qed.

Lemma trend_gating_witness :
  let r := {| r_zone := "104.00"; dropCount := 3 |} in
  (exists out, findSupportLevels sample = Some out
               /\ In r (resistanceZones out))
  /\ exists i, r_zone r = toFixed2 (lp_at sample i)
               /\ trendLineMatch sample i 10 "resistance" = true.
Proof.
  intro r.
  destruct (findSupportLevels sample) as [out|] eqn:F;
    [|vm_compute in F; discriminate].
  assert (Hr : In r (resistanceZones out)).
  { vm_compute in F. injection F as <-. now left. }
  split; [exists out; split; [reflexivity | exact Hr]|].
  exact (proj2 (proj2 (proj2 (trend_gating sample out F))) r Hr).
Defined.

(** C2.  Overlap matching, on doubles.  A support [s] and a resistance [r]
    of the aggregated collections match iff
    [|s.price - r.price| / s.price <= 0.05] (the support's price is the
    denominator); the output holds one record per support that matched at
    least one resistance, with the support's price text as its zone, the
    support's bounce count and the matching resistance's drop count added
    once per matching resistance, the fixed type tag, sorted ascending by
    numeric price. *)
Theorem overlap_matching_contract :
  forall pd out,
    findSupportLevels pd = Some out ->
    highlightedZones out
    = js_sort h_zone
        (spec_overlapRecords (supportZones out) (resistanceZones out))
    /\ (forall h,
          In h (highlightedZones out)
          <-> exists s,
                In s (supportZones out)
                /\ (exists r, In r (resistanceZones out)
                              /\ overlaps s r = true)
                /\ h = spec_overlapRecord (resistanceZones out) s)
    /\ NoDup (map h_zone (highlightedZones out))
    /\ StronglySorted (fun a b => zone_le (h_zone a) (h_zone b))
                      (highlightedZones out)
    /\ (forall s r,
          overlaps s r
          = PrimFloat.leb
              (PrimFloat.div
                 (PrimFloat.abs
                    (PrimFloat.sub (parseFloat (s_zone s))
                                   (parseFloat (r_zone r))))
                 (parseFloat (s_zone s)))
              c_0_05).
Proof.
  intros pd out F.
  destruct (b64_findSupportLevels_latest pd out F) as [latest L].
  destruct (b64_findSupportLevels_some pd latest out L F) as (ES & ER & EH).
  assert (NS : NoDup (map s_zone (supportZones out)))
    by (rewrite ES; apply b64_aggregated_supports_nodup).
  rewrite (b64_tempHighlights_spec _ _ NS) in EH.
  assert (M : forall h,
             In h (spec_overlapRecords (supportZones out) (resistanceZones out))
             <-> exists s,
                   In s (supportZones out)
                   /\ (exists r, In r (resistanceZones out)
                                 /\ overlaps s r = true)
                   /\ h = spec_overlapRecord (resistanceZones out) s).
  { intro h. unfold spec_overlapRecords. rewrite in_map_iff. split.
    - intros (s & <- & Hs). apply filter_In in Hs as [Hs E].
      apply existsb_exists in E. exists s. repeat split; auto.
    - intros (s & Hs & E & ->). exists s. split; [reflexivity|].
      apply filter_In. split; [exact Hs | now apply existsb_exists]. }
  split; [exact EH|]. split; [|split; [|split]].
  - intro h. rewrite EH, b64_js_sort_in. apply M.
  - rewrite EH.
    apply (Permutation_NoDup
             (l := map h_zone (spec_overlapRecords (supportZones out)
                                                   (resistanceZones out)))).
    + apply Permutation_map, b64_js_sort_perm.
    + unfold spec_overlapRecords. rewrite map_map.
      cbn [spec_overlapRecord h_zone].
      now apply NoDup_map_filter.
  - rewrite EH. apply b64_js_sort_sorted. rewrite Forall_forall.
    intros h Hh. apply M in Hh as (s & _ & (r & _ & O) & ->).
    cbn [spec_overlapRecord h_zone].
    exact (b64_overlaps_numeric s r O).
  - reflexivity.
Qed.

Lemma overlap_matching_contract_witness :
  let h := {| h_zone := "100.00"; supportBounceCount := 3;
              resistanceDropCount := 3;
              h_type := "support-resistance overlap" |} in
  exists out,
    findSupportLevels sample = Some out
    /\ In h (highlightedZones out)
    /\ exists s,
         In s (supportZones out)
         /\ (exists r, In r (resistanceZones out) /\ overlaps s r = true)
         /\ h = spec_overlapRecord (resistanceZones out) s.
Proof.
  intro h.
  destruct (findSupportLevels sample) as [out|] eqn:F;
    [|vm_compute in F; discriminate].
  assert (Hh : In h (highlightedZones out)).
  { vm_compute in F. injection F as <-. now left. }
  exists out. split; [reflexivity|]. split; [exact Hh|].
  exact (proj1 (proj1 (proj2 (overlap_matching_contract sample out F)) h) Hh).
Defined.

(** The scenario of the specification: a support at "100.00" with three
    bounces and a resistance at "101.00" with two drops give one record. *)
Example overlap_single :
  js_sort h_zone
    (obj_values
       (tempHighlights
          [ {| s_zone := "100.00"; bounceCount := 3;
               confirmedResistance := false |} ]
          [ {| r_zone := "101.00"; dropCount := 2 |} ]))
  = [ {| h_zone := "100.00"; supportBounceCount := 3;
         resistanceDropCount := 2;
         h_type := "support-resistance overlap" |} ].
Proof. vm_compute; reflexivity. Qed.

(** A support that matches two resistances adds its bounce count twice. *)
Example overlap_twice :
  js_sort h_zone
    (obj_values
       (tempHighlights
          [ {| s_zone := "100.00"; bounceCount := 3;
               confirmedResistance := false |} ]
          [ {| r_zone := "99.00"; dropCount := 3 |};
            {| r_zone := "101.00"; dropCount := 4 |};
            {| r_zone := "106.00"; dropCount := 5 |} ]))
  = [ {| h_zone := "100.00"; supportBounceCount := 6;
         resistanceDropCount := 7;
         h_type := "support-resistance overlap" |} ].
Proof. vm_compute; reflexivity. Qed.

(** The quotient of the texts "1.00" and "1.05" is a little above 0.05 in
    binary64: no overlap. *)
Example overlap_at_the_tolerance :
  overlaps {| s_zone := "1.00"; bounceCount := 3;
              confirmedResistance := false |}
           {| r_zone := "1.05"; dropCount := 3 |} = false.
Proof. vm_compute; reflexivity. Qed.

(** A support at 100.00 and a resistance at 105.10 are more than 5% of the
    support's price apart, and less than 5% of their average. *)
Example overlap_not_pair_average :
  let s := {| s_zone := "100.00"; bounceCount := 3;
              confirmedResistance := false |} in
  let r := {| r_zone := "105.10"; dropCount := 3 |} in
  overlaps s r = false /\ overlaps_first_revision s r = true.
Proof. split; vm_compute; reflexivity. Qed.

(** *** The trend validator and its range *)

Lemma b64_trendCount_spec pd b range d :
  trendCount pd b (S range) (direction_name d) = spec_trendCount pd b range d.
Proof.
  unfold trendCount, spec_trendCount.
  rewrite fold_count, Nat.add_0_l, filter_range.
  rewrite <- (filter_seq_upto (b + S range)).
  f_equal. apply filter_ext. intro i.
  unfold on_trend, expected.
  replace (i <? b + S range)%nat with (i <=? b + range)%nat
    by (destruct (Nat.leb_spec i (b + range)), (Nat.ltb_spec i (b + S range));
        auto; lia).
  destruct d; cbn [direction_name String.eqb Ascii.eqb Bool.eqb];
    destruct (i <=? b + range)%nat, (b <? i)%nat; reflexivity.
Qed.

(** C4.  The validator counts the observations within 3% of
    [base.lp -/+ base.lp * 0.01 * (i - baseIndex)] and returns true iff the
    count is at least 3, but its loop stops one index early: called with
    [range + 1] it checks the [range] following points of the contract, so
    with the default 10 it checks 9.  On [lateDecline] the tenth point after
    the base is the third on the trend line: the contract validates the
    base, the code does not, and the support at 100.00 with its three
    bounces is not reported. *)
Theorem trend_validator_range_short :
  (forall pd baseIndex range d,
      trendLineMatch pd baseIndex (S range) (direction_name d)
      = spec_trendLineMatch pd baseIndex range d)
  /\ spec_trendLineMatch lateDecline 0 10 ForSupport = true
  /\ trendLineMatch lateDecline 0 10 "support" = false
  /\ spec_touchCount lateDecline (spec_bounced lateDecline) 0 = 3%nat
  /\ exists out, findSupportLevels lateDecline = Some out
                 /\ supportZones out = [].
Proof.
  split.
  { intros. unfold trendLineMatch, spec_trendLineMatch.
    now rewrite b64_trendCount_spec. }
  split; [vm_compute; reflexivity|].
  split; [vm_compute; reflexivity|].
  split; [vm_compute; reflexivity|].
  destruct (findSupportLevels lateDecline) as [out|] eqn:F;
    [|vm_compute in F; discriminate].
  exists out. split; [reflexivity|].
  vm_compute in F. injection F as <-. reflexivity.
Qed.

(** *** The first revision *)

Lemma b64_pushOverlap_first_test acc s r :
  pushOverlap_first acc s r
  = acc ++ if overlaps_first_revision s r
           then [ {| h_zone := toFixed2 (pairAverage s r);
                     supportBounceCount := bounceCount s;
                     resistanceDropCount := dropCount r;
                     h_type := "support-resistance overlap" |} ]
           else [].
Proof.
  unfold pushOverlap_first, overlaps_first_revision, pairAverage.
  destruct (PrimFloat.leb _ _); [|now rewrite app_nil_r].
  now rewrite or0_id.
Qed.

Lemma b64_inner_first acc s rs :
  fold_left (fun acc' r => pushOverlap_first acc' s r) rs acc
  = acc ++ flat_map (pushOverlap_first [] s) rs.
Proof.
  revert acc. induction rs as [|r rs IH]; intro acc; cbn [fold_left flat_map].
  - now rewrite app_nil_r.
  - rewrite IH, (b64_pushOverlap_first_test acc),
      (b64_pushOverlap_first_test []), app_nil_l, <- app_assoc.
    reflexivity.
Qed.

Lemma b64_highlights_first_flat ss rs :
  highlights_first ss rs
  = flat_map (fun s => flat_map (pushOverlap_first [] s) rs) ss.
Proof.
  unfold highlights_first.
  assert (G : forall acc,
             fold_left
               (fun acc s =>
                  fold_left (fun acc' r => pushOverlap_first acc' s r) rs acc)
               ss acc
             = acc ++ flat_map (fun s => flat_map (pushOverlap_first [] s) rs)
                               ss).
  { induction ss as [|s ss IH]; intro acc; cbn [fold_left flat_map].
    - now rewrite app_nil_r.
    - rewrite IH, b64_inner_first, <- app_assoc. reflexivity. }
  apply (G []).
Qed.

Lemma b64_inner_first_length s rs :
  List.length (flat_map (pushOverlap_first [] s) rs)
  = List.length (filter (overlaps_first_revision s) rs).
Proof.
  induction rs as [|r rs IH]; cbn [flat_map filter]; [reflexivity|].
  rewrite length_app, b64_pushOverlap_first_test, app_nil_l, IH.
  destruct (overlaps_first_revision s r); reflexivity.
Qed.

(** X22.  The first revision, on doubles, pushes one overlap record per
    pair of a support and a resistance that lie within 5% of their average:
    a record is in its output exactly when it comes from such a pair, it
    carries the average to two decimals and the pair's own counts, and the
    output has as many records as there are such pairs. *)
Theorem first_revision_one_record_per_pair :
  forall ss rs,
    (forall h,
        In h (highlights_first ss rs)
        <-> exists s r,
              In s ss /\ In r rs
              /\ overlaps_first_revision s r = true
              /\ h = {| h_zone := toFixed2 (pairAverage s r);
                        supportBounceCount := bounceCount s;
                        resistanceDropCount := dropCount r;
                        h_type := "support-resistance overlap" |})
    /\ List.length (highlights_first ss rs)
       = list_sum
           (map (fun s => List.length (filter (overlaps_first_revision s) rs))
                ss).
Proof.
  intros ss rs. rewrite b64_highlights_first_flat. split.
  - intro h. rewrite in_flat_map. split.
    + intros (s & Hs & H). apply in_flat_map in H as (r & Hr & H).
      rewrite b64_pushOverlap_first_test, app_nil_l in H.
      destruct (overlaps_first_revision s r) eqn:O; [|contradiction].
      destruct H as [<- | []].
      exists s, r. repeat split; auto.
    + intros (s & r & Hs & Hr & O & ->).
      exists s. split; [exact Hs|]. apply in_flat_map.
      exists r. split; [exact Hr|].
      rewrite b64_pushOverlap_first_test, O. now left.
  - rewrite flat_map_length_sum. f_equal. apply map_ext.
    intro s. apply b64_inner_first_length.
Qed.

(** A support that matches two resistances gives two records in the first
    revision, each with the support's own bounce count. *)
Example first_revision_twice :
  highlights_first
    [ {| s_zone := "100.00"; bounceCount := 3;
         confirmedResistance := false |} ]
    [ {| r_zone := "99.00"; dropCount := 3 |};
      {| r_zone := "101.00"; dropCount := 4 |};
      {| r_zone := "106.00"; dropCount := 5 |} ]
  = [ {| h_zone := "99.50"; supportBounceCount := 3;
         resistanceDropCount := 3;
         h_type := "support-resistance overlap" |};
      {| h_zone := "100.50"; supportBounceCount := 3;
         resistanceDropCount := 4;
         h_type := "support-resistance overlap" |} ].
Proof. vm_compute; reflexivity. Qed.

(** The average of 1.00 and 1.01 is a double a little below 1.005: its text
    is "1.00". *)
Example first_revision_average_text :
  highlights_first
    [ {| s_zone := "1.00"; bounceCount := 3; confirmedResistance := false |} ]
    [ {| r_zone := "1.01"; dropCount := 3 |} ]
  = [ {| h_zone := "1.00"; supportBounceCount := 3;
         resistanceDropCount := 3;
         h_type := "support-resistance overlap" |} ].
Proof. vm_compute; reflexivity. Qed.

End Binary64Contracts.

(** *** A base price of zero *)

Section Binary64Zero.
Import B64.

(** The slope term of a zero base is a zero or NaN. *)
Lemma b64_zero_slope d :
  let m := PrimFloat.mul (PrimFloat.mul PrimFloat.zero c_0_01) d in
  (exists s, Prim2SF m = S754_zero s) \/ Prim2SF m = S754_nan.
Proof.
  cbv zeta.
  change (PrimFloat.mul PrimFloat.zero c_0_01) with PrimFloat.zero.
  rewrite mul_spec. change (Prim2SF PrimFloat.zero) with (S754_zero false).
  destruct (Prim2SF d) as [s|s| |s m e]; cbn; eauto.
Qed.

Lemma b64_zero_expected pd b type i :
  lp_at pd b = PrimFloat.zero ->
  Prim2SF (expected pd b type i) = S754_zero false
  \/ Prim2SF (expected pd b type i) = S754_nan.
Proof.
  intro Z. unfold expected. rewrite Z.
  destruct (b64_zero_slope (of_nat (i - b))) as [[s E] | E];
    destruct (type =? "support")%string;
    rewrite ?sub_spec, ?add_spec, E;
    change (Prim2SF PrimFloat.zero) with (S754_zero false);
    try (destruct s); cbn; auto.
Qed.

(** A quotient by zero of an absolute value is plus infinity or NaN. *)
Lemma b64_leb_div_zero y e c :
  Prim2SF e = S754_zero false \/ Prim2SF e = S754_nan ->
  Prim2SF c = Prim2SF c_0_03 ->
  PrimFloat.leb (PrimFloat.div (PrimFloat.abs y) e) c = false.
Proof.
  intros E C. rewrite leb_spec, div_spec, abs_spec, C.
  destruct E as [-> | ->]; destruct (Prim2SF y) as [s|s| |s m x];
    reflexivity.
Qed.

(** X13.  A base price of (positive) zero never validates, on doubles:
    every expected price is zero and every relative deviation is a quotient
    by zero, plus infinity or NaN. *)
Theorem trend_zero_base :
  forall pd baseIndex range type,
    lp_at pd baseIndex = PrimFloat.zero ->
    trendLineMatch pd baseIndex range type = false.
Proof.
  intros pd b range type Z. unfold trendLineMatch, trendCount.
  rewrite fold_count, Nat.add_0_l.
  rewrite (filter_ext _ (fun _ => false)).
  - induction (JS.range _ _) as [|x l IH]; cbn; [reflexivity | exact IH].
  - intro i. unfold on_trend.
    apply b64_leb_div_zero; [|reflexivity].
    now apply b64_zero_expected.
Qed.

Lemma trend_zero_base_witness :
  let pd := series ["0"; "5"; "5"; "5"; "5"] in
  lp_at pd 0 = PrimFloat.zero
  /\ trendLineMatch pd 0 10 "resistance" = false.
Proof.
  intro pd.
  assert (Z : lp_at pd 0 = PrimFloat.zero) by (vm_compute; reflexivity).
  split; [exact Z|].
  exact (trend_zero_base pd 0 10 "resistance" Z).
Defined.

End Binary64Zero.

(** *** Rounding at the thresholds *)

Section Binary64Examples.
Import B64.

(** The decimal literals denote the nearest doubles. *)
Example literal_61_4 :
  Prim2SF (parseFloat "61.4") = S754_finite false 8641281785017139 (-47)
  /\ parseFloat "0.05" = c_0_05
  /\ parseFloat "0.1" = c_0_1
  /\ parseFloat "0.01" = c_0_01
  /\ parseFloat "0.03" = c_0_03.
Proof. repeat split; vm_compute; reflexivity. Qed.

(** The text of a double: the exact value rounded to two decimals, the
    larger one on a tie; exponent notation from 10^21. *)
Example texts_of_doubles :
  map (fun t => toFixed2 (parseFloat t))
      ["61.4"; "1.005"; "0.125"; "-0.001"; "-0"; "1e21"; "1.5e300";
       "123456789012345680000"; "Infinity"; "x"]
  = ["61.40"; "1.00"; "0.13"; "-0.00"; "0.00"; "1e+21"; "1.5e+300";
     "123456789012345683968.00"; "Infinity"; "NaN"].
Proof. vm_compute; reflexivity. Qed.

(** [(1 - 0.9) / 1] is the double below 0.1: the fall from 1 to 0.9 is not
    a reversal. *)
Example fall_of_a_tenth :
  actedAsResistanceBefore (series ["1"; "0.9"; "1"]) 2 (parseFloat "1")
  = false.
Proof. vm_compute; reflexivity. Qed.

(** Likewise the rise from 0.99 to 1.089 and the fall from 1 to 0.9. *)
Example rise_of_a_tenth :
  rises (series ["0.99"; "1.089"]) 0 1 = false
  /\ drops (series ["1"; "0.9"]) 0 1 = false.
Proof. split; vm_compute; reflexivity. Qed.

(** 64.47 is within 5% of 61.4 in binary64 (the quotient rounds to 0.05). *)
Example touch_before_the_base :
  actedAsResistanceBefore (series ["64.47"; "50"; "61.4"]) 2
                          (parseFloat "61.4") = true.
Proof. vm_compute; reflexivity. Qed.

(** 288.09 is within 3% of 297 in exact arithmetic and not in binary64. *)
Example trend_at_the_tolerance :
  trendLineMatch (series ["300"; "288.09"; "294"; "291"]) 0 10 "support"
  = false
  /\ trendLineMatch (series ["1"; "1.0403"; "1.02"; "1.03"]) 0 10
                    "resistance" = true.
Proof. split; vm_compute; reflexivity. Qed.

(** 64.47 is a touch of 61.4 in binary64: the base is a support with three
    bounces. *)
Example touch_at_the_tolerance :
  option_map supportZones
    (findSupportLevels
       (series ["61.4"; "30"; "30"; "30"; "30"; "30"; "30"; "57.1"; "56.49";
                "55.87"; "64.47"; "64.47"; "64.47"; "71"]))
  = Some [ {| s_zone := "61.40"; bounceCount := 3;
              confirmedResistance := false |} ].
Proof. vm_compute; reflexivity. Qed.

(** With a negative-zero base every quotient of the resistance direction is
    minus infinity, which is within every tolerance. *)
Example negative_zero_base :
  trendLineMatch (series ["-0"; "5"; "5"; "5"]) 0 10 "resistance" = true
  /\ trendLineMatch (series ["0"; "5"; "5"; "5"]) 0 10 "resistance" = false.
Proof. split; vm_compute; reflexivity. Qed.

(** The text "-0.00" reads back as negative zero; the quotient by it is
    minus infinity and the pair counts as an overlap. *)
Example overlap_negative_zero :
  overlaps {| s_zone := "-0.00"; bounceCount := 3;
              confirmedResistance := false |}
           {| r_zone := "1.05"; dropCount := 3 |} = true.
Proof. vm_compute; reflexivity. Qed.

(** The order used for the sorts agrees with the sign of the float
    difference, here on every pair of a list of texts with zeros, a
    subnormal, neighbouring doubles, the largest double, infinities and
    NaN. *)
Example comparator_is_the_difference :
  let texts := ["0.00"; "-0.00"; "5e-324"; "-5e-324"; "0.01"; "0.02";
                "61.40"; "61.41"; "100.00"; "-100.00"; "1e+21";
                "9007199254740992"; "9007199254740993"; "9007199254740994";
                "1.7976931348623157e308"; "-1.7976931348623157e308";
                "Infinity"; "-Infinity"; "NaN"] in
  forallb
    (fun a =>
       forallb
         (fun b => Bool.eqb (cmp_gt a b)
                            (PrimFloat.ltb PrimFloat.zero (cmp_difference a b)))
         texts)
    texts = true.
Proof. vm_compute; reflexivity. Qed.

(** A [Set] holds one zero and one NaN. *)
Example set_add_zeros :
  set_add (parseFloat "-0") [] = [PrimFloat.zero]
  /\ set_add (parseFloat "-0") [PrimFloat.zero] = [PrimFloat.zero]
  /\ set_add PrimFloat.nan [PrimFloat.nan] = [PrimFloat.nan].
Proof. repeat split; vm_compute; reflexivity. Qed.

End Binary64Examples.
